(** * Payment-gated job coordinator: model and properties

    A shallow embedding of the FastAPI service in [main.py] together with
    the Blockfrost verifier in [cardano_payments.py] and the mock
    certificate issuer in [cardano_nft.py].

    The three module-level dictionaries [jobs], [payment_instances] and
    [tx_logs] are finite maps keyed by job id.  Calls that leave the
    process (Blockfrost, the crew, the Masumi payment object) receive
    their answer as an argument of the handler and are recorded in a call
    log, so that "the verifier was not invoked" is a statement about that
    log. *)

From stdpp Require Import base strings gmap list fin_maps.
From Stdlib Require Import ZArith Lia.

Local Open Scope string_scope.
Local Open Scope list_scope.
Local Open Scope Z_scope.

(** ** Python values that cross the model boundary *)

(** What a handler can do: return a value, raise [HTTPException], or let
    another exception escape (FastAPI answers 500). *)
Inductive Reply (A : Type) :=
  | Return (a : A)
  | RaiseHTTP (status_code : Z) (detail : string)
  | RaiseError (e : string).
Arguments Return {A} a.
Arguments RaiseHTTP {A} status_code detail.
Arguments RaiseError {A} e.

(** The values reachable through [getattr] on an execution result. *)
Inductive PyVal :=
  | PyNone
  | PyStr (s : string)
  | PyDict (items : list (string * string)).

(** Python truthiness of those values. *)
Definition truthy (v : PyVal) : bool :=
  match v with
  | PyNone => false
  | PyStr s => negb (bool_decide (s = ""))
  | PyDict items => negb (bool_decide (items = []))
  end.

(** [a or b] *)
Definition py_or (a b : PyVal) : PyVal := if truthy a then a else b.

(** [os.getenv(name)] followed by Python's truth test: unset and empty are
    both falsy. *)
Definition nonempty (v : option string) : option string :=
  match v with
  | Some s => if bool_decide (s = "") then None else Some s
  | None => None
  end.

(** An environment variable that the code passes to [int(...)]. *)
Inductive IntVar :=
  | IntUnset
  | IntValue (z : Z)
  | IntInvalid (s : string).

(** [int(os.getenv(name, default))]; [None] stands for [ValueError]. *)
Definition int_getenv (v : IntVar) (default : Z) : option Z :=
  match v with
  | IntUnset => Some default
  | IntValue z => Some z
  | IntInvalid _ => None
  end.

Record Env := {
  SELLER_ADDRESS : option string;
  PAYMENT_AMOUNT : IntVar;
  CERT_OWNER_ADDRESS : option string;
  MOCK_POLICY_ID : option string
}.

(** ** cardano_payments.py *)

Module CardanoPayments.

(** The ["quantity"] entry of an amount, as [int(amt.get("quantity", "0"))]
    sees it: absent, convertible to an integer, or not convertible. *)
Inductive Quantity :=
  | QMissing
  | QInt (z : Z)
  | QMalformed (s : string).

Record AmountEntry := {
  unit : option string;
  quantity : Quantity
}.

Record TxOutput := {
  address : option string;
  amount : option (list AmountEntry)
}.

(** The JSON body of [GET /txs/{hash}/utxos], in the shape Blockfrost
    documents; every key the code reads with [.get] may be absent. *)
Record UtxoData := {
  outputs : option (list TxOutput)
}.

(** Outcome of [client.get] followed by [resp.raise_for_status()]. *)
Inductive HttpResult :=
  | HttpRaises (e : string)
  | HttpOk (data : UtxoData).

Record MatchingOutput := {
  mo_address : string;
  mo_value : Z
}.

Inductive Details :=
  | DetailsError (error : string)
  | DetailsPayment (received : Z) (matching_outputs : list MatchingOutput)
                   (required : Z).

Record Verification := {
  ok : bool;
  details : Details
}.

Definition int_quantity (q : Quantity) : option Z :=
  match q with
  | QMissing => Some 0
  | QInt z => Some z
  | QMalformed _ => None
  end.

(** The inner loop, [for amt in out.get("amount", [])], threading
    [received] and [matching_outputs]; [None] is the [ValueError] of
    [int]. *)
Fixpoint scan_amounts (addr : string) (amts : list AmountEntry)
    (acc : Z * list MatchingOutput) : option (Z * list MatchingOutput) :=
  match amts with
  | [] => Some acc
  | amt :: rest =>
      if bool_decide (unit amt = Some "lovelace") then
        match int_quantity (quantity amt) with
        | Some value =>
            scan_amounts addr rest
              (fst acc + value,
               snd acc ++ [{| mo_address := addr; mo_value := value |}])
        | None => None
        end
      else scan_amounts addr rest acc
  end.

(** The outer loop, [for out in outputs]. *)
Fixpoint scan_outputs (seller_address : string) (outs : list TxOutput)
    (acc : Z * list MatchingOutput) : option (Z * list MatchingOutput) :=
  match outs with
  | [] => Some acc
  | out :: rest =>
      if bool_decide (address out = Some seller_address) then
        match scan_amounts seller_address (default [] (amount out)) acc with
        | Some acc' => scan_outputs seller_address rest acc'
        | None => None
        end
      else scan_outputs seller_address rest acc
  end.

(** [verify_transaction_pay_to_address]; the argument [resp] is what
    Blockfrost answered for [tx_hash]. *)
Definition verify_transaction_pay_to_address (resp : HttpResult)
    (tx_hash seller_address : string) (min_lovelace : Z)
    : Reply Verification :=
  match resp with
  | HttpRaises e =>
      Return {| ok := false; details := DetailsError e |}
  | HttpOk data =>
      match scan_outputs seller_address (default [] (outputs data)) (0, []) with
      | Some (received, matching_outputs) =>
          Return {| ok := bool_decide (min_lovelace ≤ received);
                    details := DetailsPayment received matching_outputs
                                              min_lovelace |}
      | None => RaiseError "ValueError"
      end
  end.

(** *** The contract in the words of the specification *)

Definition entry (addr : string) (v : Z) : MatchingOutput :=
  {| mo_address := addr; mo_value := v |}.

(** The amount an entry states: the integer of its quantity; an entry
    that states none adds nothing. *)
Definition quantity_value (q : Quantity) : Z :=
  match q with
  | QInt z => z
  | QMissing => 0
  | QMalformed _ => 0
  end.

(** Lovelace quantities among the amounts of one output. *)
Definition values_of (amts : list AmountEntry) : list Z :=
  omap (λ amt, if bool_decide (unit amt = Some "lovelace")
               then Some (quantity_value (quantity amt))
               else None) amts.

Definition lovelace_values (out : TxOutput) : list Z :=
  values_of (default [] (amount out)).

(** Outputs of the transaction that pay the target address. *)
Definition outputs_to (target : string) (data : UtxoData) : list TxOutput :=
  filter (λ out, address out = Some target) (default [] (outputs data)).

(** Sum of the lovelace amounts sent to the target address. *)
Definition received_sum (target : string) (data : UtxoData) : Z :=
  foldr Z.add 0 (concat (lovelace_values <$> outputs_to target data)).

(** The matching outputs reported to the caller. *)
Definition matching_list (target : string) (data : UtxoData)
    : list MatchingOutput :=
  entry target <$> concat (lovelace_values <$> outputs_to target data).

(** Every lovelace quantity of the list converts to an integer, as
    Blockfrost's decimal strings do. *)
Definition amounts_ok (amts : list AmountEntry) : bool :=
  forallb
    (λ amt, if bool_decide (unit amt = Some "lovelace")
            then bool_decide (is_Some (int_quantity (quantity amt)))
            else true) amts.

(** The same for every output that pays the target. *)
Definition quantities_ok (target : string) (data : UtxoData) : bool :=
  forallb (λ out, amounts_ok (default [] (amount out)))
          (outputs_to target data).

End CardanoPayments.

(** ** cardano_nft.py *)

Module CardanoNft.

(** The [metadata] dictionary handed to the issuer. *)
Record Metadata := {
  md_job_id : option string;
  md_identifier : option string
}.

Record Nft := {
  policy_id : string;
  token_name : string;
  owner : string;
  metadata : Metadata
}.

Definition mint_certificate_nft_mock (env : Env) (owner_address : string)
    (md : Metadata) : Nft :=
  {| policy_id := default "mockpolicy1234567890" (MOCK_POLICY_ID env);
     token_name := "Certificate-" +:+ default "unknown" (md_job_id md);
     owner := owner_address;
     metadata := md |}.

End CardanoNft.

(** ** main.py *)

Module Main.
Import CardanoPayments CardanoNft.

Inductive Status := awaiting_payment | running | completed | failed.

#[global] Instance Status_eq_dec : EqDecision Status.
Proof. solve_decision. Defined.

(** The object returned by [crew.crew.kickoff]: its optional attributes
    [json_dict] and [raw], and its [str(...)] form. *)
Record CrewOutput := {
  json_dict : option PyVal;
  raw : option PyVal;
  to_str : string
}.

(** What [execute_crew_task] hands back: annotated [str], in practice the
    crew's output object. *)
Inductive ResultData :=
  | ResText (s : string)
  | ResObject (o : CrewOutput).

Record TxLog := {
  log_tx_hash : string;
  verified : Details
}.

(** An entry of [jobs]. The keys ["error"], ["tx"] and ["nft"] are absent
    from a new job; [None] stands for the absent key there, and for
    Python's [None] in [tx_hash], [result] and [payment_status]. *)
Record Job := {
  status : Status;
  payment_status : option string;
  tx_hash : option string;
  input_data : gmap string string;
  result : option ResultData;
  identifier_from_purchaser : string;
  error : option string;
  tx : option TxLog;
  nft : option Nft
}.

Definition set_status (v : Status) (j : Job) : Job :=
  {| status := v; payment_status := payment_status j; tx_hash := tx_hash j;
     input_data := input_data j; result := result j;
     identifier_from_purchaser := identifier_from_purchaser j;
     error := error j; tx := tx j; nft := nft j |}.

Definition set_payment_status (v : option string) (j : Job) : Job :=
  {| status := status j; payment_status := v; tx_hash := tx_hash j;
     input_data := input_data j; result := result j;
     identifier_from_purchaser := identifier_from_purchaser j;
     error := error j; tx := tx j; nft := nft j |}.

Definition set_tx_hash (v : option string) (j : Job) : Job :=
  {| status := status j; payment_status := payment_status j; tx_hash := v;
     input_data := input_data j; result := result j;
     identifier_from_purchaser := identifier_from_purchaser j;
     error := error j; tx := tx j; nft := nft j |}.

Definition set_result (v : option ResultData) (j : Job) : Job :=
  {| status := status j; payment_status := payment_status j;
     tx_hash := tx_hash j; input_data := input_data j; result := v;
     identifier_from_purchaser := identifier_from_purchaser j;
     error := error j; tx := tx j; nft := nft j |}.

Definition set_error (v : option string) (j : Job) : Job :=
  {| status := status j; payment_status := payment_status j;
     tx_hash := tx_hash j; input_data := input_data j; result := result j;
     identifier_from_purchaser := identifier_from_purchaser j;
     error := v; tx := tx j; nft := nft j |}.

Definition set_tx (v : option TxLog) (j : Job) : Job :=
  {| status := status j; payment_status := payment_status j;
     tx_hash := tx_hash j; input_data := input_data j; result := result j;
     identifier_from_purchaser := identifier_from_purchaser j;
     error := error j; tx := v; nft := nft j |}.

Definition set_nft (v : option Nft) (j : Job) : Job :=
  {| status := status j; payment_status := payment_status j;
     tx_hash := tx_hash j; input_data := input_data j; result := result j;
     identifier_from_purchaser := identifier_from_purchaser j;
     error := error j; tx := tx j; nft := v |}.

(** A Masumi [Payment] object; only its identity matters here. *)
Record Payment := { payment_ref : string }.

(** Calls that leave the process, in the order they are made.
    [CallKickoff] is the crew started by an execution phase;
    [CallForceRun] is the crew started by [/force_run], always with task
    "reply" and with the text [data.input_data.get("text")], which may be
    [None]. *)
Inductive Call :=
  | CallVerify (tx_hash seller_address : string) (min_lovelace : Z)
  | CallKickoff (text task : string)
  | CallCompletePayment (job_id payment_id : string) (result_dict : PyVal)
  | CallStopMonitoring (job_id : string)
  | CallCheckPaymentStatus (job_id : string)
  | CallForceRun (text : option string).

(** A coroutine [handle_payment_status(job_id, payment_id)] handed to
    [asyncio.create_task]. *)
Record Task := {
  task_job_id : string;
  task_payment_id : string
}.

(** The process state: the three dictionaries, the tasks created but not
    yet started, the tasks suspended at [await execute_crew_task(...)],
    and the log of outside calls. *)
Record World := {
  jobs : gmap string Job;
  payment_instances : gmap string Payment;
  tx_logs : gmap string TxLog;
  created : list Task;
  suspended : list Task;
  calls : list Call
}.

(** The state at import time: [jobs = {}], [payment_instances = {}],
    [tx_logs = {}]. *)
Definition initial : World :=
  {| jobs := ∅; payment_instances := ∅; tx_logs := ∅;
     created := []; suspended := []; calls := [] |}.

Definition with_jobs (f : gmap string Job → gmap string Job) (w : World)
    : World :=
  {| jobs := f (jobs w); payment_instances := payment_instances w;
     tx_logs := tx_logs w; created := created w; suspended := suspended w;
     calls := calls w |}.

Definition with_payment_instances
    (f : gmap string Payment → gmap string Payment) (w : World) : World :=
  {| jobs := jobs w; payment_instances := f (payment_instances w);
     tx_logs := tx_logs w; created := created w; suspended := suspended w;
     calls := calls w |}.

Definition with_tx_logs (f : gmap string TxLog → gmap string TxLog)
    (w : World) : World :=
  {| jobs := jobs w; payment_instances := payment_instances w;
     tx_logs := f (tx_logs w); created := created w;
     suspended := suspended w; calls := calls w |}.

Definition with_created (f : list Task → list Task) (w : World) : World :=
  {| jobs := jobs w; payment_instances := payment_instances w;
     tx_logs := tx_logs w; created := f (created w);
     suspended := suspended w; calls := calls w |}.

Definition with_suspended (f : list Task → list Task) (w : World) : World :=
  {| jobs := jobs w; payment_instances := payment_instances w;
     tx_logs := tx_logs w; created := created w;
     suspended := f (suspended w); calls := calls w |}.

(** Append one outside call to the log. *)
Definition call (c : Call) (w : World) : World :=
  {| jobs := jobs w; payment_instances := payment_instances w;
     tx_logs := tx_logs w; created := created w; suspended := suspended w;
     calls := calls w ++ [c] |}.

(** [jobs[job_id][key] = value] on an existing entry. The entry is one
    shared dictionary, so the write is an in-place [alter]. *)
Definition update_job (job_id : string) (f : Job → Job) (w : World) : World :=
  with_jobs (alter f job_id) w.

(** *** Requests and responses *)

Record StartJobRequest := {
  req_identifier_from_purchaser : string;
  req_input_data : gmap string string
}.

Record StartJobResponse := {
  sj_status : string;
  sj_job_id : string;
  sj_message : string;
  sj_seller_address : option string;
  sj_required_lovelace : Z
}.

Inductive SubmitTxResponse :=
  | SubmitFailed (details : Verification)
  | SubmitAccepted (job_id tx_hash : string) (verification : Verification).

Record StatusView := {
  view_job_id : string;
  view_status : Status;
  view_payment_status : option string;
  view_result : PyVal;
  view_tx : option TxLog
}.

(** Answer of the crew to one [kickoff]. *)
Inductive ExecOutcome :=
  | ExecReturns (r : ResultData)
  | ExecRaises (e : string).

(** Answer of [check_payment_status()]: the value found under
    [data.status], a [ValueError], or another exception. *)
Inductive CheckOutcome :=
  | CheckReturns (st : option string)
  | CheckValueError (e : string)
  | CheckRaises (e : string).

(** *** execute_crew_task *)

(** The branch taken on [inputs.get("task_type", "reply")]. *)
Definition task_of (inputs : gmap string string) : string :=
  let task_type := default "reply" (inputs !! "task_type") in
  if bool_decide (task_type = "research") then "research"
  else if bool_decide (task_type = "summarize") then "summarize"
  else "reply".

(** The [kickoff] call made for a job's [input_data] (a dictionary, so it
    is passed through as [inputs]). *)
Definition kickoff_call (inputs : gmap string string) : Call :=
  CallKickoff (default "" (inputs !! "text")) (task_of inputs).

(** [getattr(result, "json_dict", None) or getattr(result, "raw", None)
    or str(result)] *)
Definition result_dict_of (r : ResultData) : PyVal :=
  match r with
  | ResText s => py_or (py_or PyNone PyNone) (PyStr s)
  | ResObject o =>
      py_or (py_or (default PyNone (json_dict o)) (default PyNone (raw o)))
            (PyStr (to_str o))
  end.

(** *** start_job *)

(** [job_id] is the value drawn by [uuid.uuid4()]. *)
Definition start_job (env : Env) (job_id : string) (data : StartJobRequest)
    (w : World) : Reply StartJobResponse * World :=
  match req_input_data data !! "text" with
  | None =>
      (RaiseHTTP 400 "Bad Request: If input_data or identifier_from_purchaser is missing, invalid, or does not adhere to the schema.", w)
  | Some input_text =>
      let w' :=
        with_jobs
          (insert job_id
             {| status := awaiting_payment;
                payment_status := Some "pending";
                tx_hash := None;
                input_data := req_input_data data;
                result := None;
                identifier_from_purchaser :=
                  req_identifier_from_purchaser data;
                error := None; tx := None; nft := None |}) w in
      match int_getenv (PAYMENT_AMOUNT env) 10000000 with
      | Some required =>
          (Return
             {| sj_status := "pending_payment";
                sj_job_id := job_id;
                sj_message := "Send a small ADA payment to the seller address and POST /submit_tx with tx_hash";
                sj_seller_address := SELLER_ADDRESS env;
                sj_required_lovelace := required |}, w')
      | None =>
          (RaiseHTTP 400 "Input_data or identifier_from_purchaser is missing, invalid, or does not adhere to the schema.", w')
      end
  end.

(** *** handle_payment_status *)

(** The two cleanup blocks: stop monitoring (an exception there is
    swallowed) and [del payment_instances[job_id]]. *)
Definition release_payment (job_id : string) (w : World) : World :=
  match payment_instances w !! job_id with
  | Some _ =>
      with_payment_instances (delete job_id)
        (call (CallStopMonitoring job_id) w)
  | None => w
  end.

(** From the start of the coroutine to the point where it waits for the
    crew: [jobs[job_id]["status"] = "running"], then the [kickoff] made by
    [execute_crew_task]. For an id that is not in [jobs] the [KeyError] is
    raised again inside the handler and leaves the coroutine ([None]). *)
Definition handle_payment_status_enter (job_id payment_id : string)
    (w : World) : option World :=
  match jobs w !! job_id with
  | Some job =>
      let w := update_job job_id (set_status running) w in
      Some (call (kickoff_call (input_data job)) w)
  | None => None
  end.

(** The [except Exception] handler. *)
Definition handle_payment_status_except (job_id : string) (e : string)
    (w : World) : World :=
  let w := update_job job_id (set_status failed) w in
  let w := update_job job_id (set_error (Some e)) w in
  release_payment job_id w.

(** From the answer of the crew to the end of the coroutine.
    [complete_raises] tells whether [complete_payment] raised; that
    exception is logged and dropped, so the flag changes nothing. For an
    id that is not in [jobs] every write raises [KeyError], also in the
    handler, and the coroutine is left ([None]). *)
Definition handle_payment_status_resume (env : Env) (out : ExecOutcome)
    (complete_raises : bool) (job_id payment_id : string) (w : World)
    : option World :=
  match jobs w !! job_id with
  | None => None
  | Some job =>
      match out with
      | ExecRaises e => Some (handle_payment_status_except job_id e w)
      | ExecReturns res =>
          let result_dict := result_dict_of res in
          let w :=
            match payment_instances w !! job_id with
            | Some _ =>
                call (CallCompletePayment job_id payment_id result_dict) w
            | None => w
            end in
          let w := update_job job_id (set_status completed) w in
          let w :=
            update_job job_id (set_payment_status (Some "completed")) w in
          let w := update_job job_id (set_result (Some res)) w in
          let w :=
            match tx_logs w !! job_id with
            | Some l => update_job job_id (set_tx (Some l)) w
            | None => w
            end in
          (* details carry no "address" key, so the second operand of
             [or] is None *)
          let owner := nonempty (CERT_OWNER_ADDRESS env) in
          let md :=
            {| md_job_id := Some job_id;
               md_identifier := Some (identifier_from_purchaser job) |} in
          let minted :=
            mint_certificate_nft_mock env (default "unknown" owner) md in
          let w := update_job job_id (set_nft (Some minted)) w in
          Some (release_payment job_id w)
      end
  end.

(** The whole coroutine when nothing else runs in between. *)
Definition handle_payment_status (env : Env) (out : ExecOutcome)
    (complete_raises : bool) (job_id payment_id : string) (w : World)
    : option World :=
  match handle_payment_status_enter job_id payment_id w with
  | Some w' =>
      handle_payment_status_resume env out complete_raises job_id payment_id w'
  | None => None
  end.

(** *** get_status *)

(** Truth value of [result_data]: [None] and the empty string are falsy,
    an output object is truthy. *)
Definition result_truthy (result_data : option ResultData) : bool :=
  match result_data with
  | None => false
  | Some (ResText s) => negb (bool_decide (s = ""))
  | Some (ResObject _) => true
  end.

(** [hasattr(result_data, "raw")] *)
Definition hasattr_raw (result_data : option ResultData) : bool :=
  match result_data with
  | Some (ResObject o) => bool_decide (is_Some (raw o))
  | _ => false
  end.

(** [result_data.raw], read only after [hasattr_raw] *)
Definition getattr_raw (result_data : option ResultData) : PyVal :=
  match result_data with
  | Some (ResObject o) => default PyNone (raw o)
  | _ => PyNone
  end.

Definition refreshed_status (chk : CheckOutcome) : option string :=
  match chk with
  | CheckReturns st => st
  | CheckValueError _ => Some "unknown"
  | CheckRaises _ => Some "error"
  end.

Definition get_status (chk : CheckOutcome) (job_id : string) (w : World)
    : Reply StatusView * World :=
  match jobs w !! job_id with
  | None => (RaiseHTTP 404 "Job not found", w)
  | Some job0 =>
      let refresh := bool_decide (is_Some (payment_instances w !! job_id)) in
      let job :=
        if refresh then set_payment_status (refreshed_status chk) job0
        else job0 in
      let w' :=
        if refresh then
          update_job job_id (set_payment_status (refreshed_status chk))
            (call (CallCheckPaymentStatus job_id) w)
        else w in
      let result_data := result job in
      let res :=
        if result_truthy result_data && hasattr_raw result_data
        then getattr_raw result_data else PyNone in
      (Return {| view_job_id := job_id;
                 view_status := status job;
                 view_payment_status := payment_status job;
                 view_result := res;
                 view_tx := tx job |}, w')
  end.

(** *** submit_tx *)

(** [resp] is Blockfrost's answer for [tx_hash]. *)
Definition submit_tx (env : Env) (resp : HttpResult)
    (job_id tx_hash : string) (w : World)
    : Reply SubmitTxResponse * World :=
  match jobs w !! job_id with
  | None => (RaiseHTTP 404 "Job not found", w)
  | Some _ =>
      match nonempty (SELLER_ADDRESS env) with
      | None => (RaiseHTTP 500 "SELLER_ADDRESS not configured on server", w)
      | Some seller_address =>
          match int_getenv (PAYMENT_AMOUNT env) 10000000 with
          | None => (RaiseError "ValueError", w)
          | Some required =>
              let w := call (CallVerify tx_hash seller_address required) w in
              match verify_transaction_pay_to_address resp tx_hash
                      seller_address required with
              | RaiseHTTP c d => (RaiseHTTP c d, w)
              | RaiseError e => (RaiseError e, w)
              | Return verification =>
                  if negb (ok verification) then
                    let w :=
                      update_job job_id
                        (set_payment_status (Some "failed")) w in
                    let w := update_job job_id (set_status failed) w in
                    (Return (SubmitFailed verification), w)
                  else
                    let w :=
                      update_job job_id
                        (set_payment_status (Some "completed")) w in
                    let w :=
                      update_job job_id (set_tx_hash (Some tx_hash)) w in
                    let w :=
                      with_tx_logs
                        (insert job_id
                           {| log_tx_hash := tx_hash;
                              verified := details verification |}) w in
                    let w :=
                      with_created
                        (λ q, q ++ [{| task_job_id := job_id;
                                       task_payment_id := tx_hash |}]) w in
                    (Return (SubmitAccepted job_id tx_hash verification), w)
              end
          end
      end
  end.
(** *** The service as a transition system *)

(** One atomic piece of work of the event loop, with the answers of the
    outside world it consumes. *)
Inductive Op :=
  | OpStartJob (job_id : string) (data : StartJobRequest)
  | OpSubmitTx (job_id tx_hash : string) (resp : HttpResult)
  | OpGetStatus (job_id : string) (chk : CheckOutcome)
  | OpTaskStart
  | OpTaskResume (i : nat) (out : ExecOutcome) (complete_raises : bool)
  | OpForceRun (data : StartJobRequest) (out : ExecOutcome).

(** The loop starts the oldest created task and runs it up to its first
    wait. *)
Definition task_start (w : World) : World :=
  match created w with
  | [] => w
  | t :: rest =>
      let w := with_created (λ _, rest) w in
      match handle_payment_status_enter (task_job_id t) (task_payment_id t) w
      with
      | Some w' => with_suspended (λ s, s ++ [t]) w'
      | None => w
      end
  end.

(** The crew answers the [i]-th waiting task, which then runs to its
    end. *)
Definition task_resume (env : Env) (i : nat) (out : ExecOutcome)
    (complete_raises : bool) (w : World) : World :=
  match suspended w !! i with
  | None => w
  | Some t =>
      let w := with_suspended (delete i) w in
      match handle_payment_status_resume env out complete_raises
              (task_job_id t) (task_payment_id t) w with
      | Some w' => w'
      | None => w
      end
  end.

(** [/force_run]: the crew is started on the request's text, outside any
    job; none of the dictionaries is read or written, whether the crew
    returns or raises. *)
Definition force_run_step (data : StartJobRequest) (w : World) : World :=
  call (CallForceRun (req_input_data data !! "text")) w.

(** The remaining endpoints ([/availability], [/input_schema], [/health])
    return constants: they read and write no state and call nothing, so
    they are no operations of the transition system. *)
Definition step (env : Env) (w : World) (op : Op) : World :=
  match op with
  | OpStartJob job_id data => snd (start_job env job_id data w)
  | OpSubmitTx job_id tx_hash resp => snd (submit_tx env resp job_id tx_hash w)
  | OpGetStatus job_id chk => snd (get_status chk job_id w)
  | OpTaskStart => task_start w
  | OpTaskResume i out cr => task_resume env i out cr w
  | OpForceRun data out => force_run_step data w
  end.

(** The state after a sequence of operations. *)
Definition run (env : Env) (w : World) (ops : list Op) : World :=
  foldl (step env) w ops.

(** [uuid4] never repeats an id: a job is created under an unused key. *)
Definition fresh_id (w : World) (op : Op) : bool :=
  match op with
  | OpStartJob job_id _ => bool_decide (jobs w !! job_id = None)
  | _ => true
  end.

(** A proof is submitted only for a job whose payment is still pending,
    that is, for which no earlier proof has been verified or refused. *)
Definition first_proof (w : World) (op : Op) : bool :=
  match op with
  | OpSubmitTx job_id _ _ =>
      match jobs w !! job_id with
      | Some job => bool_decide (payment_status job = Some "pending")
      | None => true
      end
  | _ => true
  end.

(** Every operation of the sequence satisfies [ok] in the state it is
    applied to. *)
Fixpoint all_along (ok : World → Op → bool) (env : Env) (w : World)
    (ops : list Op) : bool :=
  match ops with
  | [] => true
  | op :: rest => ok w op && all_along ok env (step env w op) rest
  end.

(** Sequences the service can see: ids are fresh. *)
Definition feasible (env : Env) (w : World) (ops : list Op) : bool :=
  all_along fresh_id env w ops.

(** Feasible sequences with at most one processed proof per job. *)
Definition single_proof (env : Env) (w : World) (ops : list Op) : bool :=
  all_along (λ w op, fresh_id w op && first_proof w op) env w ops.

(** Number of tasks of a queue that belong to a job. *)
Definition tasks_of (job_id : string) (q : list Task) : nat :=
  length (filter (λ t, task_job_id t = job_id) q).

(** Number of crew starts made by execution phases so far. *)
Definition is_kickoff (c : Call) : bool :=
  match c with
  | CallKickoff _ _ => true
  | _ => false
  end.

Definition kickoffs (w : World) : nat :=
  length (filter (λ c, is_kickoff c = true) (calls w)).

(** What one task contributes to [tasks_of]. *)
Definition belongs (job_id : string) (t : Task) : nat :=
  if decide (task_job_id t = job_id) then 1%nat else 0%nat.

(** The order of the life cycle: [awaiting_payment], then [running], then
    one of the two final states. *)
Definition rank (s : Status) : nat :=
  match s with
  | awaiting_payment => 0
  | running => 1
  | completed => 2
  | failed => 2
  end.

(** [forward s s']: the status [s'] is [s] or lies further along the life
    cycle. The final states are not ahead of one another. *)
Definition forward (s s' : Status) : bool :=
  bool_decide (s = s') || bool_decide (rank s < rank s')%nat.

(** *** Invariant of the one-proof-per-job discipline *)

(** Where a job stands, told from its fields and from the numbers [c] and
    [s] of created and of suspended tasks that belong to it. *)
Definition job_phase (c s : nat) (job : Job) : Prop :=
  match status job with
  | awaiting_payment =>
      result job = None ∧ error job = None ∧ s = 0%nat ∧
      ((payment_status job = Some "pending" ∧ c = 0%nat) ∨
       (payment_status job = Some "completed" ∧ c = 1%nat))
  | running =>
      result job = None ∧ error job = None ∧
      payment_status job = Some "completed" ∧ c = 0%nat ∧ s = 1%nat
  | completed =>
      is_Some (result job) ∧ error job = None ∧
      payment_status job = Some "completed" ∧ c = 0%nat ∧ s = 0%nat
  | failed =>
      result job = None ∧ c = 0%nat ∧ s = 0%nat ∧
      ((is_Some (error job) ∧ payment_status job = Some "completed") ∨
       (error job = None ∧ payment_status job = Some "failed"))
  end.

Definition job_ok (w : World) (job_id : string) (job : Job) : Prop :=
  job_phase (tasks_of job_id (created w)) (tasks_of job_id (suspended w)) job.

Record inv (w : World) : Prop := {
  inv_no_handles : payment_instances w = ∅;
  inv_jobs : ∀ job_id job, jobs w !! job_id = Some job → job_ok w job_id job;
  inv_tasks : ∀ job_id, jobs w !! job_id = None →
                tasks_of job_id (created w) = 0%nat ∧
                tasks_of job_id (suspended w) = 0%nat
}.

(** One step keeps the invariant and moves no status backwards. *)
Definition step_ok (w w' : World) : Prop :=
  inv w' ∧
  ∀ j job, jobs w !! j = Some job →
    ∃ job', jobs w' !! j = Some job' ∧
            forward (status job) (status job') = true.

(** *** The properties as the specification words them *)

(** [result] is set exactly on completed jobs and [error] exactly on
    failed jobs. *)
Definition result_error_consistent (job : Job) : Prop :=
  (is_Some (result job) ↔ status job = completed) ∧
  (is_Some (error job) ↔ status job = failed).

(** ... for every job at every observable point. *)
Definition always_consistent (env : Env) : Prop :=
  ∀ ops job_id job,
    feasible env initial ops = true →
    jobs (run env initial ops) !! job_id = Some job →
    result_error_consistent job.

(** The status of a job never moves backwards, whatever is done. *)
Definition never_regresses (env : Env) : Prop :=
  ∀ ops1 ops2 job_id job1 job2,
    feasible env initial (ops1 ++ ops2) = true →
    jobs (run env initial ops1) !! job_id = Some job1 →
    jobs (run env initial (ops1 ++ ops2)) !! job_id = Some job2 →
    forward (status job1) (status job2) = true.

(** In [submit_tx] the verifier is called with [seller] and [required]
    and answers [v]. *)
Definition verifier_reports (env : Env) (resp : HttpResult)
    (tx_hash seller : string) (required : Z) (v : Verification) : Prop :=
  nonempty (SELLER_ADDRESS env) = Some seller ∧
  int_getenv (PAYMENT_AMOUNT env) 10000000 = Some required ∧
  verify_transaction_pay_to_address resp tx_hash seller required = Return v.


(** After the call [submit_tx env resp job_id tx w], no task of the job
    ever exists, whatever follows. *)
Definition no_execution_ever (env : Env) (resp : HttpResult)
    (job_id tx : string) (w : World) : Prop :=
  let w' := snd (submit_tx env resp job_id tx w) in
  ∀ ops, feasible env w' ops = true →
    tasks_of job_id (created (run env w' ops)) = 0%nat ∧
    tasks_of job_id (suspended (run env w' ops)) = 0%nat.

(** [start_job] answers with an HTTP error and registers nothing. *)
Definition rejected_unregistered (env : Env) (job_id : string)
    (data : StartJobRequest) (w : World) : Prop :=
  ∃ c d, start_job env job_id data w = (RaiseHTTP c d, w) ∧ (400 ≤ c < 500).

(** Reduce projections of updated worlds and jobs, and nothing else. *)
Ltac world_simpl :=
  cbn [jobs payment_instances tx_logs created suspended calls
       with_jobs with_payment_instances with_tx_logs with_created
       with_suspended call update_job
       status payment_status tx_hash input_data result
       identifier_from_purchaser error tx nft
       set_status set_payment_status set_tx_hash set_result set_error
       set_tx set_nft fst snd].

Ltac world_simpl_in H :=
  cbn [jobs payment_instances tx_logs created suspended calls
       with_jobs with_payment_instances with_tx_logs with_created
       with_suspended call update_job] in H.

End Main.

(** ** Concrete inputs used to exercise the model *)

Module Demo.
Import CardanoPayments CardanoNft Main.

Definition env : Env :=
  {| SELLER_ADDRESS := Some "addr_test1seller";
     PAYMENT_AMOUNT := IntUnset;
     CERT_OWNER_ADDRESS := None;
     MOCK_POLICY_ID := None |}.

Definition request (text : string) : StartJobRequest :=
  {| req_identifier_from_purchaser := "purchaser-1";
     req_input_data := {[ "text" := text ]} |}.

(** A transaction with one output of [n] lovelace to the seller and one
    output to somebody else. *)
Definition paying (n : Z) : HttpResult :=
  HttpOk
    {| outputs :=
         Some [ {| address := Some "addr_test1seller";
                   amount := Some [ {| unit := Some "lovelace";
                                       quantity := QInt n |} ] |};
                {| address := Some "addr_test1change";
                   amount := Some [ {| unit := Some "lovelace";
                                       quantity := QInt 999 |} ] |} ] |}.



Definition crew_output : ResultData :=
  ResObject {| json_dict := None; raw := Some (PyStr "Dear Alice, ...");
               to_str := "Dear Alice, ..." |}.

(** A job just created. *)
Definition new_job : Job :=
  {| status := awaiting_payment;
     payment_status := Some "pending";
     tx_hash := None;
     input_data := {[ "text" := "hello" ]};
     result := None;
     identifier_from_purchaser := "purchaser-1";
     error := None; tx := None; nft := None |}.

Definition new_world : World :=
  run env initial [OpStartJob "job-1" (request "hello")].

(** What the verifier answers for 15,000,000 and for 3,000,000 lovelace
    against the default requirement. *)
Definition good_verification : Verification :=
  {| ok := true;
     details := DetailsPayment 15000000
                  [entry "addr_test1seller" 15000000] 10000000 |}.

Definition short_verification : Verification :=
  {| ok := false;
     details := DetailsPayment 3000000
                  [entry "addr_test1seller" 3000000] 10000000 |}.

(** A job created and then refused for a payment of 3,000,000. *)
Definition refused_run : list Op :=
  [OpStartJob "job-1" (request "hello");
   OpSubmitTx "job-1" "tx-1" (paying 3000000)].

Definition refused_job : Job :=
  {| status := failed;
     payment_status := Some "failed";
     tx_hash := None;
     input_data := {[ "text" := "hello" ]};
     result := None;
     identifier_from_purchaser := "purchaser-1";
     error := None; tx := None; nft := None |}.

(** A job created, paid, run and completed. *)
Definition completed_run : list Op :=
  [OpStartJob "job-1" (request "hello");
   OpSubmitTx "job-1" "tx-1" (paying 15000000);
   OpTaskStart;
   OpTaskResume 0 (ExecReturns crew_output) false].

Definition completed_job : Job :=
  {| status := completed;
     payment_status := Some "completed";
     tx_hash := Some "tx-1";
     input_data := {[ "text" := "hello" ]};
     result := Some crew_output;
     identifier_from_purchaser := "purchaser-1";
     error := None;
     tx := Some {| log_tx_hash := "tx-1";
                   verified := details good_verification |};
     nft := Some {| policy_id := "mockpolicy1234567890";
                    token_name := "Certificate-job-1";
                    owner := "unknown";
                    metadata := {| md_job_id := Some "job-1";
                                   md_identifier := Some "purchaser-1" |} |}
  |}.

(** A job created and paid once. *)
Definition paid_run : list Op :=
  [OpStartJob "job-1" (request "hello");
   OpSubmitTx "job-1" "tx-1" (paying 15000000)].

(** Two jobs; the second one receives two accepted proofs. *)
Definition crowded_prefix : list Op :=
  [OpStartJob "job-1" (request "hello");
   OpStartJob "job-2" (request "other");
   OpSubmitTx "job-2" "tx-a" (paying 15000000);
   OpSubmitTx "job-2" "tx-b" (paying 15000000)].

(** ... then the first job receives its only proof, which is refused,
    while the executions of the second job run and [/force_run] is
    called. *)
Definition crowded_rest : list Op :=
  [OpTaskStart;
   OpTaskResume 0 (ExecReturns crew_output) false;
   OpForceRun (request "anything") (ExecReturns crew_output);
   OpTaskStart;
   OpGetStatus "job-1" (CheckReturns None)].

Definition crowded_run : list Op :=
  crowded_prefix
    ++ OpSubmitTx "job-1" "tx-1" (paying 3000000) :: crowded_rest.

(** A completed job, then the same two proofs for a second job. *)
Definition busy_rest : list Op :=
  [OpStartJob "job-2" (request "other");
   OpSubmitTx "job-2" "tx-a" (paying 15000000);
   OpSubmitTx "job-2" "tx-b" (paying 15000000);
   OpTaskStart;
   OpGetStatus "job-1" (CheckReturns None)].

(** An execution that fails, a second accepted proof, an execution that
    succeeds. *)
Definition retried_run : list Op :=
  [OpStartJob "job-1" (request "hello");
   OpSubmitTx "job-1" "tx-1" (paying 15000000);
   OpTaskStart;
   OpTaskResume 0 (ExecRaises "crew crashed") false;
   OpSubmitTx "job-1" "tx-2" (paying 15000000);
   OpTaskStart;
   OpTaskResume 0 (ExecReturns crew_output) false].

(** The job as [submit_tx] leaves it after an accepted proof. *)
Definition paid_job : Job :=
  {| status := awaiting_payment;
     payment_status := Some "completed";
     tx_hash := Some "tx-1";
     input_data := {[ "text" := "hello" ]};
     result := None;
     identifier_from_purchaser := "purchaser-1";
     error := None; tx := None; nft := None |}.

(** That job accepted, with a Masumi payment handle registered for it. *)
Definition tracked_world : World :=
  with_payment_instances (insert "job-1" {| payment_ref := "masumi-1" |})
    (run env initial
       [OpStartJob "job-1" (request "hello");
        OpSubmitTx "job-1" "tx-1" (paying 15000000)]).

(** A job paid, run and completed with the plain string "done". *)
Definition done_world : World :=
  run env initial
    [OpStartJob "job-1" (request "hello");
     OpSubmitTx "job-1" "tx-1" (paying 15000000);
     OpTaskStart;
     OpTaskResume 0 (ExecReturns (ResText "done")) false].

Definition done_job : Job :=
  {| status := completed;
     payment_status := Some "completed";
     tx_hash := Some "tx-1";
     input_data := {[ "text" := "hello" ]};
     result := Some (ResText "done");
     identifier_from_purchaser := "purchaser-1";
     error := None;
     tx := Some {| log_tx_hash := "tx-1";
                   verified := details good_verification |};
     nft := Some {| policy_id := "mockpolicy1234567890";
                    token_name := "Certificate-job-1";
                    owner := "unknown";
                    metadata := {| md_job_id := Some "job-1";
                                   md_identifier := Some "purchaser-1" |} |}
  |}.

Definition done_view : StatusView :=
  {| view_job_id := "job-1";
     view_status := completed;
     view_payment_status := Some "completed";
     view_result := PyNone;
     view_tx :=
       Some {| log_tx_hash := "tx-1";
               verified :=
                 DetailsPayment 15000000
                   [entry "addr_test1seller" 15000000] 10000000 |} |}.

End Demo.

(** ** The rest of main.py, and the service seen as a step relation *)

Module Coverage.
Import CardanoPayments CardanoNft Main.

(** *** execute_crew_task and force_run *)

(** The argument of [execute_crew_task]: the job's [input_data]
    dictionary, or whatever [data.input_data.get("text")] returned. *)
Inductive CrewInput :=
  | InputDict (d : gmap string string)
  | InputOther (v : option string).

(** The keyword argument of [crew.crew.kickoff]. *)
Record KickoffInputs := {
  ki_text : option string;
  ki_task : string
}.

(** [inputs = input_data if isinstance(input_data, dict) else
    {"text": input_data}] *)
Definition inputs_of (input_data : CrewInput) : gmap string (option string) :=
  match input_data with
  | InputDict d => Some <$> d
  | InputOther v => {[ "text" := v ]}
  end.

(** [execute_crew_task] up to the call of the crew: the three branches on
    [task_type], each reading [inputs.get("text", "")]. *)
Definition execute_crew_task (input_data : CrewInput) : KickoffInputs :=
  let inputs := inputs_of input_data in
  let task_type := default (Some "reply") (inputs !! "task_type") in
  if bool_decide (task_type = Some "research") then
    {| ki_text := default (Some "") (inputs !! "text"); ki_task := "research" |}
  else if bool_decide (task_type = Some "summarize") then
    {| ki_text := default (Some "") (inputs !! "text");
       ki_task := "summarize" |}
  else
    {| ki_text := default (Some "") (inputs !! "text"); ki_task := "reply" |}.

(** [force_run]: the crew is run on [data.input_data.get("text")] and its
    result returned; an exception of the crew escapes the handler. *)
Definition force_run (out : ExecOutcome) (data : StartJobRequest)
    : KickoffInputs * Reply ResultData :=
  (execute_crew_task (InputOther (req_input_data data !! "text")),
   match out with
   | ExecReturns r => Return r
   | ExecRaises e => RaiseError e
   end).

(** *** Counting outside calls *)

Definition is_verify (c : Call) : bool :=
  match c with
  | CallVerify _ _ _ => true
  | _ => false
  end.

Definition verifies (w : World) : nat :=
  length (filter (λ c, is_verify c = true) (calls w)).

(** Calls to the Masumi payment object. *)
Definition is_masumi (c : Call) : bool :=
  match c with
  | CallCompletePayment _ _ _ => true
  | CallStopMonitoring _ => true
  | CallCheckPaymentStatus _ => true
  | _ => false
  end.

(** *** What the verifier reports *)

Definition sum_values (m : list MatchingOutput) : Z :=
  foldr Z.add 0 (mo_value <$> m).

(** *** The job after the execution phase *)

(** The writes of the success path, in order; [l] is [tx_logs.get(job_id)]. *)
Definition finish_success (env : Env) (job_id : string) (res : ResultData)
    (l : option TxLog) (job : Job) : Job :=
  let job1 :=
    set_result (Some res)
      (set_payment_status (Some "completed") (set_status completed job)) in
  let job2 :=
    match l with
    | Some l => set_tx (Some l) job1
    | None => job1
    end in
  set_nft
    (Some (mint_certificate_nft_mock env
             (default "unknown" (nonempty (CERT_OWNER_ADDRESS env)))
             {| md_job_id := Some job_id;
                md_identifier := Some (identifier_from_purchaser job) |}))
    job2.

(** The writes of the [except] handler. *)
Definition finish_failure (e : string) (job : Job) : Job :=
  set_error (Some e) (set_status failed job).

(** *** Steps *)

(** [w'] is [w] with the given job, log and task tables, and with [cs]
    appended to the outside calls; the payment handles are untouched. *)
Definition changes (w w' : World) (js : gmap string Job)
    (ls : gmap string TxLog) (cr su : list Task) (cs : list Call) : Prop :=
  jobs w' = js ∧ payment_instances w' = payment_instances w ∧
  tx_logs w' = ls ∧ created w' = cr ∧ suspended w' = su ∧
  calls w' = calls w ++ cs.

(** Everything one operation can do to a state in which no payment handle
    is registered. *)
(* the last case is [/force_run] *)
Inductive effect (env : Env) (w w' : World) : Prop :=
  | eff_none :
      changes w w' (jobs w) (tx_logs w) (created w) (suspended w) [] →
      effect env w w'
  | eff_verifier_raised tx seller required :
      changes w w' (jobs w) (tx_logs w) (created w) (suspended w)
        [CallVerify tx seller required] →
      effect env w w'
  | eff_start j data :
      jobs w !! j = None →
      changes w w'
        (<[j := {| status := awaiting_payment;
                   payment_status := Some "pending";
                   tx_hash := None;
                   input_data := req_input_data data;
                   result := None;
                   identifier_from_purchaser :=
                     req_identifier_from_purchaser data;
                   error := None; tx := None; nft := None |}]> (jobs w))
        (tx_logs w) (created w) (suspended w) [] →
      effect env w w'
  | eff_accept j job tx seller required resp v :
      jobs w !! j = Some job →
      verify_transaction_pay_to_address resp tx seller required = Return v →
      ok v = true →
      changes w w'
        (<[j := set_tx_hash (Some tx)
                  (set_payment_status (Some "completed") job)]> (jobs w))
        (<[j := {| log_tx_hash := tx; verified := details v |}]> (tx_logs w))
        (created w ++ [{| task_job_id := j; task_payment_id := tx |}])
        (suspended w) [CallVerify tx seller required] →
      effect env w w'
  | eff_refuse j job tx seller required :
      jobs w !! j = Some job →
      changes w w'
        (<[j := set_status failed
                  (set_payment_status (Some "failed") job)]> (jobs w))
        (tx_logs w) (created w) (suspended w)
        [CallVerify tx seller required] →
      effect env w w'
  | eff_enter t rest job :
      created w = t :: rest →
      jobs w !! task_job_id t = Some job →
      changes w w'
        (<[task_job_id t := set_status running job]> (jobs w))
        (tx_logs w) rest (suspended w ++ [t])
        [kickoff_call (input_data job)] →
      effect env w w'
  | eff_drop t rest :
      created w = t :: rest →
      jobs w !! task_job_id t = None →
      changes w w' (jobs w) (tx_logs w) rest (suspended w) [] →
      effect env w w'
  | eff_success i t job res :
      suspended w !! i = Some t →
      jobs w !! task_job_id t = Some job →
      changes w w'
        (<[task_job_id t :=
             finish_success env (task_job_id t) res
               (tx_logs w !! task_job_id t) job]> (jobs w))
        (tx_logs w) (created w) (delete i (suspended w)) [] →
      effect env w w'
  | eff_failure i t job e :
      suspended w !! i = Some t →
      jobs w !! task_job_id t = Some job →
      changes w w'
        (<[task_job_id t := finish_failure e job]> (jobs w))
        (tx_logs w) (created w) (delete i (suspended w)) [] →
      effect env w w'
  | eff_lost i t :
      suspended w !! i = Some t →
      jobs w !! task_job_id t = None →
      changes w w' (jobs w) (tx_logs w) (created w)
        (delete i (suspended w)) [] →
      effect env w w'
  | eff_force_run text :
      changes w w' (jobs w) (tx_logs w) (created w) (suspended w)
        [CallForceRun text] →
      effect env w w'.

(** *** Invariants of every run *)

(** Something of the execution phase, or of a verified payment, shows on
    the job. *)
Definition touched (job : Job) : Prop :=
  status job = running ∨ status job = completed ∨
  payment_status job = Some "completed" ∨
  is_Some (result job) ∨ is_Some (error job) ∨
  is_Some (tx job) ∨ is_Some (nft job).

(** The payment gate: what shows on a job and what is scheduled for it
    rests on a transaction hash that the verifier accepted and that the
    transaction log records. *)
Record gate (w : World) : Prop := {
  gate_hash : ∀ j job, jobs w !! j = Some job →
                tx_hash job = log_tx_hash <$> tx_logs w !! j;
  gate_touched : ∀ j job, jobs w !! j = Some job → touched job →
                   is_Some (tx_hash job);
  gate_logs : ∀ j, jobs w !! j = None → tx_logs w !! j = None;
  gate_tasks : ∀ t, t ∈ created w ++ suspended w →
                 ∃ job, jobs w !! task_job_id t = Some job ∧
                        is_Some (tx_hash job);
  gate_paid : ∀ j l, tx_logs w !! j = Some l →
                ∃ r m req, verified l = DetailsPayment r m req ∧ req ≤ r
}.

(** No Masumi call was made, and execution phases started the crew at
    most as often as a proof was verified, counting the executions still
    to start. *)
Record quiet (w : World) : Prop := {
  quiet_calls : Forall (λ c, is_masumi c = false) (calls w);
  quiet_count : (kickoffs w + length (created w) ≤ verifies w)%nat
}.

(** What stays of a job: its inputs, and every field that was set. *)
Record persists (job job' : Job) : Prop := {
  keep_input : input_data job' = input_data job;
  keep_identifier :
    identifier_from_purchaser job' = identifier_from_purchaser job;
  keep_hash : is_Some (tx_hash job) → is_Some (tx_hash job');
  keep_result : is_Some (result job) → is_Some (result job');
  keep_error : is_Some (error job) → is_Some (error job');
  keep_tx : is_Some (tx job) → is_Some (tx job');
  keep_nft : is_Some (nft job) → is_Some (nft job')
}.

(** *** One job among the others *)

(** The operation is a [submit_tx] call for job [j]. *)
Definition is_proof_for (j : string) (op : Op) : bool :=
  match op with
  | OpSubmitTx j' _ _ => bool_decide (j' = j)
  | _ => false
  end.

(** Number of [submit_tx] calls that job [j] receives in a sequence of
    operations, whatever their outcome. *)
Definition proofs_for (j : string) (ops : list Op) : nat :=
  length (filter (λ op, is_proof_for j op = true) ops).

(** The life-cycle invariant of one job, without any assumption on the
    other jobs. [seen] tells whether a proof has been submitted for the
    job; before that its payment is pending. *)
Definition slot (j : string) (seen : bool) (w : World) : Prop :=
  payment_instances w = ∅ ∧
  match jobs w !! j with
  | Some job =>
      job_phase (tasks_of j (created w)) (tasks_of j (suspended w)) job ∧
      (seen = false → payment_status job = Some "pending")
  | None =>
      tasks_of j (created w) = 0%nat ∧ tasks_of j (suspended w) = 0%nat
  end.

(** From [w] to [w'] job [j] is kept and its status has not moved
    backwards. *)
Definition moves_forward (j : string) (w w' : World) : Prop :=
  ∀ job, jobs w !! j = Some job →
    ∃ job', jobs w' !! j = Some job' ∧
            forward (status job) (status job') = true.

(** Every completed job has a result. *)
Definition completed_has_result (w : World) : Prop :=
  ∀ j job, jobs w !! j = Some job → status job = completed →
           is_Some (result job).

(** *** Crew starts outside the execution phases *)

Definition is_forced (c : Call) : bool :=
  match c with
  | CallForceRun _ => true
  | _ => false
  end.

(** Number of crew starts made by [/force_run]. *)
Definition forced (w : World) : nat :=
  length (filter (λ c, is_forced c = true) (calls w)).

Definition is_force_run (op : Op) : bool :=
  match op with
  | OpForceRun _ _ => true
  | _ => false
  end.

(** Number of [/force_run] requests in a sequence of operations. *)
Definition force_runs (ops : list Op) : nat :=
  length (filter (λ op, is_force_run op = true) ops).

(** *** Two properties as the specification words them *)



(** Settle a [changes] goal field by field. *)
Ltac changes_tac :=
  unfold changes; world_simpl; rewrite ?app_nil_r;
  repeat split; try reflexivity.

End Coverage.

(** ** Properties of the chain verifier *)

Module CardanoPaymentsFacts.
Import CardanoPayments.

Lemma sum_app (xs ys : list Z) :
  foldr Z.add 0 (xs ++ ys) = foldr Z.add 0 xs + foldr Z.add 0 ys.
Proof. induction xs as [|x xs IH]; simpl; lia. Qed.

Lemma scan_amounts_sum addr amts acc :
  amounts_ok amts = true →
  scan_amounts addr amts acc =
    Some (fst acc + foldr Z.add 0 (values_of amts),
          snd acc ++ (entry addr <$> values_of amts)).
Proof.
  revert acc. induction amts as [|amt amts IH]; intros [r m] Hok.
  - simpl. by rewrite Z.add_0_r, app_nil_r.
  - unfold amounts_ok in Hok. simpl in Hok.
    apply andb_true_iff in Hok as [Hamt Hrest].
    unfold values_of. simpl.
    destruct (bool_decide (unit amt = Some "lovelace")); simpl.
    + apply bool_decide_eq_true in Hamt as [v Hv].
      assert (Hq : quantity_value (quantity amt) = v)
        by (revert Hv; destruct (quantity amt); cbn; congruence).
      rewrite Hv, Hq. simpl.
      rewrite (IH _ Hrest). simpl.
      f_equal. f_equal; [symmetry; apply Z.add_assoc|].
      rewrite <- app_assoc. reflexivity.
    + by rewrite (IH _ Hrest).
Qed.

Lemma scan_outputs_sum target outs acc :
  forallb (λ out, amounts_ok (default [] (amount out)))
          (filter (λ out, address out = Some target) outs) = true →
  scan_outputs target outs acc =
    Some (fst acc +
            foldr Z.add 0
              (concat (lovelace_values <$>
                         filter (λ out, address out = Some target) outs)),
          snd acc ++
            (entry target <$>
               concat (lovelace_values <$>
                         filter (λ out, address out = Some target) outs))).
Proof.
  revert acc. induction outs as [|out outs IH]; intros [r m] Hok.
  - simpl. by rewrite Z.add_0_r, app_nil_r.
  - simpl. rewrite filter_cons in Hok |- *.
    destruct (decide (address out = Some target)) as [Heq|Hne].
    + rewrite (bool_decide_eq_true_2 _ Heq).
      simpl in Hok. apply andb_true_iff in Hok as [Hout Hrest].
      rewrite (scan_amounts_sum _ _ _ Hout). simpl.
      rewrite (IH _ Hrest). simpl.
      rewrite sum_app, fmap_app.
      f_equal. f_equal; [symmetry; apply Z.add_assoc|].
      rewrite <- app_assoc. reflexivity.
    + rewrite (bool_decide_eq_false_2 _ Hne). by rewrite (IH _ Hok).
Qed.

(** A quantity that does not convert makes the verifier raise. *)
Example verify_malformed_quantity :
  verify_transaction_pay_to_address
    (HttpOk {| outputs :=
                 Some [ {| address := Some "a";
                           amount := Some [ {| unit := Some "lovelace";
                                               quantity := QMalformed "x" |} ]
                        |} ] |}) "tx" "a" 1
  = RaiseError "ValueError".
Proof. reflexivity. Qed.

Example verify_scenario_short :
  verify_transaction_pay_to_address (Demo.paying 3000000) "tx"
    "addr_test1seller" 10000000
  = Return {| ok := false;
              details := DetailsPayment 3000000
                           [entry "addr_test1seller" 3000000] 10000000 |}.
Proof. reflexivity. Qed.

End CardanoPaymentsFacts.

(** ** Properties of single calls *)

Module MainFacts.
Import CardanoPayments CardanoNft Main.

Lemma release_payment_jobs job_id w :
  jobs (release_payment job_id w) = jobs w.
Proof. unfold release_payment. by destruct (payment_instances w !! job_id). Qed.

Lemma release_payment_gone job_id w :
  payment_instances (release_payment job_id w) !! job_id = None.
Proof.
  unfold release_payment.
  destruct (payment_instances w !! job_id) eqn:E; [|done].
  cbn. apply lookup_delete_eq.
Qed.

Lemma release_payment_stops job_id w :
  is_Some (payment_instances w !! job_id) →
  calls (release_payment job_id w) = calls w ++ [CallStopMonitoring job_id].
Proof. intros [p Hp]. unfold release_payment. by rewrite Hp. Qed.

(** C8. A proof submitted under an id that is not in the registry is
    answered 404 "Job not found"; the state, and with it the log of
    outside calls, is unchanged, so the verifier is not invoked. *)
Theorem submit_tx_unknown_job env resp job_id tx w :
  jobs w !! job_id = None →
  submit_tx env resp job_id tx w = (RaiseHTTP 404 "Job not found", w) ∧
  calls (snd (submit_tx env resp job_id tx w)) = calls w.
Proof. intros H. unfold submit_tx. by rewrite H. Qed.

Lemma submit_tx_unknown_job_witness :
  submit_tx Demo.env (Demo.paying 15000000) "no-such-job" "tx-1" initial
    = (RaiseHTTP 404 "Job not found", initial) ∧
  calls (snd (submit_tx Demo.env (Demo.paying 15000000) "no-such-job" "tx-1"
                initial)) = calls initial.
Proof. apply submit_tx_unknown_job. reflexivity. Defined.

(** C7, as amended. A request whose [input_data] has no ["text"] key is
    answered 400 and registers nothing. A request that has the key, with
    any value, the empty string included, registers a job awaiting payment
    with a pending payment; it is answered with the job id, the seller
    address and the required amount when [PAYMENT_AMOUNT] is unset or
    converts to an integer, and with 400 (the job being registered all the
    same) when it does not convert. *)
Theorem start_job_text_check env job_id data w :
  (req_input_data data !! "text" = None →
     rejected_unregistered env job_id data w) ∧
  (is_Some (req_input_data data !! "text") →
     (∃ job, jobs (snd (start_job env job_id data w)) !! job_id = Some job ∧
             status job = awaiting_payment ∧
             payment_status job = Some "pending") ∧
     (∀ required,
        int_getenv (PAYMENT_AMOUNT env) 10000000 = Some required →
        fst (start_job env job_id data w)
        = Return {| sj_status := "pending_payment";
                    sj_job_id := job_id;
                    sj_message := "Send a small ADA payment to the seller address and POST /submit_tx with tx_hash";
                    sj_seller_address := SELLER_ADDRESS env;
                    sj_required_lovelace := required |}) ∧
     (int_getenv (PAYMENT_AMOUNT env) 10000000 = None →
        ∃ d, fst (start_job env job_id data w) = RaiseHTTP 400 d)).
Proof.
  split.
  - intros H. unfold rejected_unregistered, start_job. rewrite H.
    eexists _, _. split; [done|lia].
  - intros [t H]. unfold start_job. rewrite H.
    destruct (int_getenv (PAYMENT_AMOUNT env) 10000000) as [required|];
      cbn; rewrite lookup_insert_eq.
    + split; [by eexists|]. split; [|done]. by intros ? [= <-].
    + split; [by eexists|]. split; [done|]. intros _. by eexists.
Qed.

Lemma start_job_text_check_witness :
  rejected_unregistered Demo.env "job-1"
    {| req_identifier_from_purchaser := "purchaser-1";
       req_input_data := ∅ |} initial ∧
  (∃ job, jobs (snd (start_job Demo.env "job-1" (Demo.request "") initial))
            !! "job-1" = Some job ∧
          status job = awaiting_payment ∧
          payment_status job = Some "pending") ∧
  fst (start_job Demo.env "job-1" (Demo.request "") initial)
  = Return {| sj_status := "pending_payment";
              sj_job_id := "job-1";
              sj_message := "Send a small ADA payment to the seller address and POST /submit_tx with tx_hash";
              sj_seller_address := Some "addr_test1seller";
              sj_required_lovelace := 10000000 |}.
Proof.
  destruct (start_job_text_check Demo.env "job-1"
              {| req_identifier_from_purchaser := "purchaser-1";
                 req_input_data := ∅ |} initial) as [Hmissing _].
  destruct (start_job_text_check Demo.env "job-1" (Demo.request "") initial)
    as [_ Hpresent].
  split; [apply Hmissing; reflexivity|].
  destruct Hpresent as (Hjob & Hreply & _); [vm_compute; by eexists|].
  split; [exact Hjob|]. apply (Hreply 10000000). reflexivity.
Defined.

(** C7, as stated, fails: a request whose text is empty is accepted and
    its job is registered. *)
Lemma start_job_empty_text_registered :
  req_input_data (Demo.request "") !! "text" = Some "" ∧
  ¬ rejected_unregistered Demo.env "job-1" (Demo.request "") initial ∧
  is_Some (jobs (snd (start_job Demo.env "job-1" (Demo.request "") initial))
             !! "job-1").
Proof.
  split; [reflexivity|]. split.
  - intros (c & d & H & _). vm_compute in H. discriminate H.
  - vm_compute. by eexists.
Qed.

(** C10. The view returned by [get_status] carries a result other than
    null only if the stored result is an object with a [raw] attribute;
    a stored plain string, or an object without [raw], is reported as
    null, also when the job is completed. *)
Theorem get_status_result_needs_raw chk job_id w view w' :
  get_status chk job_id w = (Return view, w') →
  ∃ job, jobs w !! job_id = Some job ∧
    view_status view = status job ∧
    (view_result view ≠ PyNone →
       ∃ o, result job = Some (ResObject o) ∧ is_Some (raw o)) ∧
    (∀ s, result job = Some (ResText s) → view_result view = PyNone) ∧
    (∀ o, result job = Some (ResObject o) → raw o = None →
          view_result view = PyNone).
Proof.
  unfold get_status. destruct (jobs w !! job_id) as [job|] eqn:Hjob; [|done].
  intros H. injection H as Hview Hw. subst view. exists job. split; [done|]. cbn.
  assert (Hres : ∀ (b : bool) v, result (if b then set_payment_status v job else job)
                        = result job) by (by intros []).
  assert (Hst : ∀ (b : bool) v, status (if b then set_payment_status v job else job)
                       = status job) by (by intros []).
  rewrite Hres, Hst. split; [done|].
  destruct (result job) as [[s|o]|]; cbn.
  - rewrite andb_false_r. by repeat split.
  - destruct (raw o) as [v|] eqn:Hraw; cbn.
    + split; [intros _; exists o; split; [done|by rewrite Hraw]|].
      split; [done|]. intros o0 [= <-] H0. congruence.
    + by repeat split.
  - by repeat split.
Qed.

(** A completed job whose stored result is the string "done" is shown
    with a null result. *)
Lemma get_status_result_needs_raw_witness :
  ∃ job, jobs Demo.done_world !! "job-1" = Some job ∧
    view_status Demo.done_view = status job ∧
    (view_result Demo.done_view ≠ PyNone →
       ∃ o, result job = Some (ResObject o) ∧ is_Some (raw o)) ∧
    (∀ s, result job = Some (ResText s) →
          view_result Demo.done_view = PyNone) ∧
    (∀ o, result job = Some (ResObject o) → raw o = None →
          view_result Demo.done_view = PyNone).
Proof.
  apply (get_status_result_needs_raw (CheckReturns None) "job-1"
           Demo.done_world Demo.done_view Demo.done_world).
  vm_compute. reflexivity.
Defined.

Example done_world_stores_text :
  (λ job, (status job, result job)) <$> jobs Demo.done_world !! "job-1"
  = Some (completed, Some (ResText "done")).
Proof. vm_compute. reflexivity. Qed.

(** *** The execution phase *)

Lemma handle_payment_status_resume_cleanup env out cr job_id payment_id w job :
  jobs w !! job_id = Some job →
  ∃ w', handle_payment_status_resume env out cr job_id payment_id w = Some w' ∧
    payment_instances w' !! job_id = None ∧
    (is_Some (payment_instances w !! job_id) →
       last (calls w') = Some (CallStopMonitoring job_id)) ∧
    (∀ e, out = ExecRaises e →
       ∃ job', jobs w' !! job_id = Some job' ∧
               status job' = failed ∧ error job' = Some e).
Proof.
  intros Hjob. unfold handle_payment_status_resume. rewrite Hjob.
  destruct out as [res|e].
  - eexists. split; [reflexivity|]. split; [apply release_payment_gone|].
    split; [|discriminate].
    intros Hp. rewrite release_payment_stops.
    + apply last_snoc.
    + destruct Hp as [p Hp]. rewrite Hp. cbn.
      destruct (tx_logs w !! job_id); cbn; rewrite Hp; by eexists.
  - eexists. split; [reflexivity|]. unfold handle_payment_status_except.
    split; [apply release_payment_gone|]. split.
    + intros Hp. rewrite release_payment_stops; [apply last_snoc|exact Hp].
    + intros e' [= <-]. rewrite release_payment_jobs. cbn.
      rewrite !lookup_alter_eq, Hjob. cbn. by eexists.
Qed.

(** C9. An execution phase whose task raises leaves the job [failed] with
    the exception's message in [error]; and whether the task returns or
    raises, the job's entry in [payment_instances] is gone afterwards and,
    if there was one, [stop_status_monitoring] was the last outside
    call. *)
Theorem handle_payment_status_cleanup env out cr job_id payment_id w job :
  jobs w !! job_id = Some job →
  ∃ w', handle_payment_status env out cr job_id payment_id w = Some w' ∧
    payment_instances w' !! job_id = None ∧
    (is_Some (payment_instances w !! job_id) →
       last (calls w') = Some (CallStopMonitoring job_id)) ∧
    (∀ e, out = ExecRaises e →
       ∃ job', jobs w' !! job_id = Some job' ∧
               status job' = failed ∧ error job' = Some e).
Proof.
  intros Hjob. unfold handle_payment_status, handle_payment_status_enter.
  rewrite Hjob.
  destruct (handle_payment_status_resume_cleanup env out cr job_id payment_id
              (call (kickoff_call (input_data job))
                 (update_job job_id (set_status running) w))
              (set_status running job))
    as (w' & Hrun & Hgone & Hstop & Hfail).
  { cbn. by rewrite lookup_alter_eq, Hjob. }
  exists w'. split; [exact Hrun|]. split; [exact Hgone|].
  split; [exact Hstop|exact Hfail].
Qed.

(** A job with a payment handle, as the Masumi flow would register it. *)
Lemma handle_payment_status_cleanup_witness :
  ∃ w', handle_payment_status Demo.env (ExecRaises "crew crashed") false
          "job-1" "tx-1" Demo.tracked_world = Some w' ∧
    payment_instances w' !! "job-1" = None ∧
    (is_Some (payment_instances Demo.tracked_world !! "job-1") →
       last (calls w') = Some (CallStopMonitoring "job-1")) ∧
    (∀ e, ExecRaises "crew crashed" = ExecRaises e →
       ∃ job', jobs w' !! "job-1" = Some job' ∧
               status job' = failed ∧ error job' = Some e).
Proof.
  apply (handle_payment_status_cleanup Demo.env (ExecRaises "crew crashed")
           false "job-1" "tx-1" Demo.tracked_world Demo.paid_job).
  vm_compute. reflexivity.
Defined.

Example cleanup_on_success :
  (λ w', (payment_instances w' !! "job-1", last (calls w'),
          status <$> jobs w' !! "job-1"))
    <$> handle_payment_status Demo.env (ExecReturns Demo.crew_output) true
          "job-1" "tx-1" Demo.tracked_world
  = Some (None, Some (CallStopMonitoring "job-1"), Some completed).
Proof. vm_compute. reflexivity. Qed.

Example cleanup_on_failure :
  (λ w', (payment_instances w' !! "job-1", last (calls w'),
          (λ j, (status j, error j)) <$> jobs w' !! "job-1"))
    <$> handle_payment_status Demo.env (ExecRaises "crew crashed") true
          "job-1" "tx-1" Demo.tracked_world
  = Some (None, Some (CallStopMonitoring "job-1"),
          Some (failed, Some "crew crashed")).
Proof. vm_compute. reflexivity. Qed.

(** *** submit_tx on a known job *)

Lemma refused_call_effect env resp job_id tx w job seller required v :
  jobs w !! job_id = Some job →
  verifier_reports env resp tx seller required v →
  ok v = false →
  ∃ w' job',
    submit_tx env resp job_id tx w = (Return (SubmitFailed v), w') ∧
    jobs w' !! job_id = Some job' ∧
    status job' = failed ∧
    payment_status job' = Some "failed" ∧
    created w' = created w ∧
    suspended w' = suspended w ∧
    calls w' = calls w ++ [CallVerify tx seller required].
Proof.
  intros Hjob (Hseller & Hreq & Hver) Hok.
  unfold submit_tx. rewrite Hjob, Hseller, Hreq, Hver, Hok. cbn.
  eexists _, _. split; [reflexivity|]. cbn.
  rewrite !lookup_alter_eq, Hjob. cbn. by repeat split.
Qed.

Lemma accepted_call_effect env resp job_id tx w job seller required v :
  jobs w !! job_id = Some job →
  verifier_reports env resp tx seller required v →
  ok v = true →
  ∃ w',
    submit_tx env resp job_id tx w
      = (Return (SubmitAccepted job_id tx v), w') ∧
    jobs w' !! job_id
      = Some (set_tx_hash (Some tx)
                (set_payment_status (Some "completed") job)) ∧
    tx_logs w' !! job_id
      = Some {| log_tx_hash := tx; verified := details v |} ∧
    created w'
      = created w ++ [{| task_job_id := job_id; task_payment_id := tx |}] ∧
    suspended w' = suspended w ∧
    calls w' = calls w ++ [CallVerify tx seller required].
Proof.
  intros Hjob (Hseller & Hreq & Hver) Hok.
  unfold submit_tx. rewrite Hjob, Hseller, Hreq, Hver, Hok. cbn.
  eexists. split; [reflexivity|]. cbn.
  rewrite !lookup_alter_eq, Hjob, lookup_insert_eq. by repeat split.
Qed.




End MainFacts.

(** ** The life cycle under the one-proof-per-job discipline *)

Module Lifecycle.
Import CardanoPayments CardanoNft Main.

Section Tasks.
Implicit Types (q : list Task) (t : Task) (j : string).

Lemma tasks_of_cons j t q :
  tasks_of j (t :: q) = (belongs j t + tasks_of j q)%nat.
Proof.
  unfold tasks_of, belongs. rewrite filter_cons.
  by destruct (decide (task_job_id t = j)).
Qed.

Lemma tasks_of_snoc j t q :
  tasks_of j (q ++ [t]) = (tasks_of j q + belongs j t)%nat.
Proof.
  unfold tasks_of, belongs. rewrite filter_app, length_app, filter_cons.
  by destruct (decide (task_job_id t = j)).
Qed.

Lemma tasks_of_delete j q i t :
  q !! i = Some t →
  tasks_of j q = (belongs j t + tasks_of j (delete i q))%nat.
Proof.
  revert i. induction q as [|t' q IH]; intros [|i] Hi; try done.
  - injection Hi as ->. apply tasks_of_cons.
  - change (delete (S i) (t' :: q)) with (t' :: delete i q).
    rewrite !tasks_of_cons, (IH i Hi). lia.
Qed.

Lemma belongs_own j t : task_job_id t = j → belongs j t = 1%nat.
Proof. intros H. unfold belongs. by rewrite decide_True. Qed.

Lemma belongs_other j t : j ≠ task_job_id t → belongs j t = 0%nat.
Proof. intros H. unfold belongs. by rewrite decide_False. Qed.
End Tasks.

Lemma alter_known {A} (f : A → A) (m : gmap string A) i x :
  m !! i = Some x → alter f i m = <[i := f x]> m.
Proof.
  intros H. rewrite <- (insert_id m i x H) at 1. apply alter_insert_eq.
Qed.

Lemma forward_refl s : forward s s = true.
Proof. by destruct s. Qed.

Lemma forward_trans s1 s2 s3 :
  forward s1 s2 = true → forward s2 s3 = true → forward s1 s3 = true.
Proof. by destruct s1, s2, s3. Qed.

(** What the invariant says about a job whose payment is pending, about a
    job with a created task, and about a job with a suspended task. *)
Lemma pending_phase c s job :
  job_phase c s job → payment_status job = Some "pending" →
  status job = awaiting_payment ∧ result job = None ∧ error job = None ∧
  c = 0%nat ∧ s = 0%nat.
Proof.
  unfold job_phase. intros H Hp. rewrite Hp in H.
  destruct (status job); intuition (try discriminate).
Qed.

Lemma created_phase c s job :
  job_phase c s job → (1 ≤ c)%nat →
  status job = awaiting_payment ∧ result job = None ∧ error job = None ∧
  payment_status job = Some "completed" ∧ c = 1%nat ∧ s = 0%nat.
Proof.
  unfold job_phase. intros H Hc.
  destruct (status job); intuition lia.
Qed.

Lemma suspended_phase c s job :
  job_phase c s job → (1 ≤ s)%nat →
  status job = running ∧ result job = None ∧ error job = None ∧
  payment_status job = Some "completed" ∧ c = 0%nat ∧ s = 1%nat.
Proof.
  unfold job_phase. intros H Hs.
  destruct (status job); intuition lia.
Qed.

Lemma same_ok w w' :
  inv w → jobs w' = jobs w → payment_instances w' = payment_instances w →
  created w' = created w → suspended w' = suspended w → step_ok w w'.
Proof.
  intros [Hh Hj Ht] Ej Ep Ec Es. split.
  - split.
    + by rewrite Ep.
    + intros j job. unfold job_ok. rewrite Ej, Ec, Es. apply Hj.
    + intros j. rewrite Ej, Ec, Es. apply Ht.
  - intros j job Hjob. exists job. rewrite Ej. split; [done|apply forward_refl].
Qed.

Lemma update_ok w w' j job' :
  inv w →
  payment_instances w' = ∅ →
  jobs w' = <[j := job']> (jobs w) →
  job_phase (tasks_of j (created w')) (tasks_of j (suspended w')) job' →
  (∀ j', j' ≠ j →
     tasks_of j' (created w') = tasks_of j' (created w) ∧
     tasks_of j' (suspended w') = tasks_of j' (suspended w)) →
  (∀ job, jobs w !! j = Some job →
          forward (status job) (status job') = true) →
  step_ok w w'.
Proof.
  intros [Hh Hj Ht] Ep Ej Hphase Hothers Hfwd. split.
  - split; [exact Ep| |].
    + intros j' job. rewrite Ej, lookup_insert. case_decide as Hjj'.
      * subst j'. intros [= <-]. exact Hphase.
      * intros Hjob. unfold job_ok.
        destruct (Hothers j' (not_eq_sym Hjj')) as [-> ->]. by apply Hj.
    + intros j'. rewrite Ej, lookup_insert. case_decide as Hjj'; [done|].
      intros Hnone. destruct (Hothers j' (not_eq_sym Hjj')) as [-> ->].
      by apply Ht.
  - intros j' job Hjob. rewrite Ej, lookup_insert. case_decide as Hjj'.
    + subst j'. exists job'. split; [done|]. by apply Hfwd.
    + exists job. split; [done|apply forward_refl].
Qed.

Lemma inv_initial : inv initial.
Proof.
  split; [done| |done]. intros j job H. cbn in H.
  by rewrite lookup_empty in H.
Qed.

Lemma start_job_ok env j data w :
  inv w → jobs w !! j = None → step_ok w (snd (start_job env j data w)).
Proof.
  intros Hinv Hnew. unfold start_job.
  destruct (req_input_data data !! "text"); [|by apply same_ok].
  destruct (inv_tasks w Hinv j Hnew) as [Hc Hs].
  assert (Hgoal : ∀ job0, status job0 = awaiting_payment →
            payment_status job0 = Some "pending" → result job0 = None →
            error job0 = None →
            step_ok w (with_jobs (insert j job0) w)).
  { intros job0 Hst Hp Hr He.
    apply (update_ok w _ j job0);
      [exact Hinv|apply (inv_no_handles w Hinv)|reflexivity| | |].
    - world_simpl. unfold job_phase. rewrite Hst, Hc, Hs. intuition.
    - by intros j' _.
    - intros job. rewrite Hnew. discriminate. }
  destruct (int_getenv (PAYMENT_AMOUNT env) 10000000); world_simpl;
    by apply Hgoal.
Qed.

Lemma submit_tx_ok env resp j tx w :
  inv w → first_proof w (OpSubmitTx j tx resp) = true →
  step_ok w (snd (submit_tx env resp j tx w)).
Proof.
  intros Hinv Hfirst. unfold submit_tx. cbn [first_proof] in Hfirst.
  destruct (jobs w !! j) as [job|] eqn:Hjob; [|by apply same_ok].
  apply bool_decide_eq_true in Hfirst.
  destruct (pending_phase _ _ _ (inv_jobs w Hinv j job Hjob) Hfirst)
    as (Hst & Hres & Herr & Hc & Hs).
  destruct (nonempty (SELLER_ADDRESS env)); [|by apply same_ok].
  destruct (int_getenv (PAYMENT_AMOUNT env) 10000000); [|by apply same_ok].
  destruct (verify_transaction_pay_to_address resp tx _ _) as [v|c d|e];
    [|by apply same_ok..].
  destruct (ok v); cbn [negb]; world_simpl.
  - (* accepted: one task is created for the job *)
    apply (update_ok w _ j
             (set_tx_hash (Some tx)
                (set_payment_status (Some "completed") job)));
      [exact Hinv|apply (inv_no_handles w Hinv)| | | |].
    + world_simpl.
      by rewrite (alter_known _ _ _ _ Hjob), alter_insert_eq.
    + world_simpl. rewrite tasks_of_snoc, Hc, Hs.
      rewrite belongs_own by done.
      unfold job_phase. world_simpl. rewrite Hst. intuition.
    + intros j' Hne. world_simpl.
      rewrite tasks_of_snoc, belongs_other by done. split; [lia|done].
    + intros job0 Hjob0. rewrite Hjob in Hjob0. injection Hjob0 as <-.
      world_simpl. apply forward_refl.
  - (* refused: the job fails, nothing is created *)
    apply (update_ok w _ j
             (set_status failed (set_payment_status (Some "failed") job)));
      [exact Hinv|apply (inv_no_handles w Hinv)| | | |].
    + world_simpl.
      by rewrite (alter_known _ _ _ _ Hjob), alter_insert_eq.
    + world_simpl. rewrite Hc, Hs. unfold job_phase. world_simpl.
      intuition.
    + by intros j' _.
    + intros job0 Hjob0. rewrite Hjob in Hjob0. injection Hjob0 as <-.
      world_simpl. by rewrite Hst.
Qed.

Lemma get_status_ok chk j w :
  inv w → step_ok w (snd (get_status chk j w)).
Proof.
  intros Hinv. unfold get_status.
  destruct (jobs w !! j); [|by apply same_ok].
  rewrite (inv_no_handles w Hinv), lookup_empty.
  rewrite bool_decide_eq_false_2 by (intros [? ?]; discriminate).
  by apply same_ok.
Qed.

Lemma task_start_ok w : inv w → step_ok w (task_start w).
Proof.
  intros Hinv. unfold task_start.
  destruct (created w) as [|t rest] eqn:Hq; [by apply same_ok|].
  set (j := task_job_id t).
  assert (Hone : tasks_of j (created w) = S (tasks_of j rest)).
  { rewrite Hq, tasks_of_cons. by rewrite belongs_own. }
  destruct (jobs w !! j) as [job|] eqn:Hjob.
  2:{ destruct (inv_tasks w Hinv j Hjob) as [Hc _]. lia. }
  destruct (created_phase _ _ _ (inv_jobs w Hinv j job Hjob))
    as (Hst & Hres & Herr & Hp & Hc & Hs); [lia|].
  unfold handle_payment_status_enter. world_simpl. rewrite Hjob.
  apply (update_ok w _ j (set_status running job));
    [exact Hinv|apply (inv_no_handles w Hinv)| | | |].
  - world_simpl. by rewrite (alter_known _ _ _ _ Hjob).
  - world_simpl. rewrite tasks_of_snoc, Hs.
    rewrite belongs_own by done.
    assert (tasks_of j rest = 0%nat) as -> by lia.
    unfold job_phase. world_simpl. intuition.
  - intros j' Hne. world_simpl. rewrite Hq.
    rewrite tasks_of_cons, tasks_of_snoc, belongs_other by done.
    split; [done|lia].
  - intros job0 Hjob0. rewrite Hjob in Hjob0. injection Hjob0 as <-.
    world_simpl. by rewrite Hst.
Qed.

Lemma release_payment_none j w :
  payment_instances w = ∅ → release_payment j w = w.
Proof. intros H. unfold release_payment. by rewrite H, lookup_empty. Qed.

(** What the second half of the coroutine does to a job when no payment
    handle is registered. *)
Lemma resume_effect env out cr j pid w job :
  payment_instances w = ∅ → jobs w !! j = Some job →
  ∃ w' job',
    handle_payment_status_resume env out cr j pid w = Some w' ∧
    jobs w' = <[j := job']> (jobs w) ∧
    payment_instances w' = ∅ ∧
    created w' = created w ∧
    suspended w' = suspended w ∧
    match out with
    | ExecReturns r =>
        status job' = completed ∧ result job' = Some r ∧
        error job' = error job ∧ payment_status job' = Some "completed"
    | ExecRaises e =>
        status job' = failed ∧ result job' = result job ∧
        error job' = Some e ∧ payment_status job' = payment_status job
    end.
Proof.
  intros Hh Hjob. unfold handle_payment_status_resume. rewrite Hjob.
  destruct out as [r|e].
  - rewrite Hh, lookup_empty.
    destruct (tx_logs w !! j) as [l|] eqn:Hl; world_simpl; rewrite Hl.
    + eexists _, _. split; [reflexivity|].
      rewrite release_payment_none by done. world_simpl.
      rewrite (alter_known _ _ _ _ Hjob), !alter_insert_eq.
      split; [reflexivity|]. by repeat split.
    + eexists _, _. split; [reflexivity|].
      rewrite release_payment_none by done. world_simpl.
      rewrite (alter_known _ _ _ _ Hjob), !alter_insert_eq.
      split; [reflexivity|]. by repeat split.
  - unfold handle_payment_status_except.
    eexists _, _. split; [reflexivity|].
    rewrite release_payment_none by done. world_simpl.
    rewrite (alter_known _ _ _ _ Hjob), !alter_insert_eq.
    split; [reflexivity|]. by repeat split.
Qed.

Lemma task_resume_ok env i out cr w :
  inv w → step_ok w (task_resume env i out cr w).
Proof.
  intros Hinv. unfold task_resume.
  destruct (suspended w !! i) as [t|] eqn:Hi; [|by apply same_ok].
  set (j := task_job_id t).
  pose proof (tasks_of_delete j _ _ _ Hi) as Hdel.
  rewrite belongs_own in Hdel by done.
  destruct (jobs w !! j) as [job|] eqn:Hjob.
  2:{ destruct (inv_tasks w Hinv j Hjob) as [_ Hs]. lia. }
  destruct (suspended_phase _ _ _ (inv_jobs w Hinv j job Hjob))
    as (Hst & Hres & Herr & Hp & Hc & Hs); [lia|].
  destruct (resume_effect env out cr j (task_payment_id t)
              (with_suspended (delete i) w) job)
    as (w' & job' & Hrun & Hjobs & Hh' & Hc' & Hs' & Hout);
    [apply (inv_no_handles w Hinv)|exact Hjob|].
  rewrite Hrun. world_simpl_in Hjobs. world_simpl_in Hc'. world_simpl_in Hs'.
  apply (update_ok w w' j job'); [exact Hinv|exact Hh'|exact Hjobs| | |].
  - rewrite Hc', Hs', Hc.
    assert (tasks_of j (delete i (suspended w)) = 0%nat) as -> by lia.
    unfold job_phase.
    destruct out as [r|e]; destruct Hout as (-> & Hr' & He' & Hp').
    + rewrite Hr', He', Hp', Herr. intuition.
    + rewrite Hr', He', Hp', Hres, Hp. intuition.
  - intros j' Hne. rewrite Hc', Hs'. split; [done|].
    rewrite (tasks_of_delete j' _ _ _ Hi), belongs_other by done. done.
  - intros job0 Hjob0. rewrite Hjob in Hjob0. injection Hjob0 as <-.
    rewrite Hst. by destruct out; destruct Hout as (-> & _).
Qed.

Lemma step_sound env w op :
  inv w → fresh_id w op = true → first_proof w op = true →
  step_ok w (step env w op).
Proof.
  intros Hinv Hfresh Hfirst.
  destruct op as [j d|j tx resp|j chk| |i out cr|d out].
  - apply start_job_ok; [done|]. by apply bool_decide_eq_true in Hfresh.
  - by apply submit_tx_ok.
  - by apply get_status_ok.
  - by apply task_start_ok.
  - by apply task_resume_ok.
  - by apply same_ok.
Qed.

Lemma all_along_app ok env w ops1 ops2 :
  all_along ok env w (ops1 ++ ops2) = true ↔
  all_along ok env w ops1 = true ∧
  all_along ok env (run env w ops1) ops2 = true.
Proof.
  revert w. induction ops1 as [|op ops1 IH]; intros w; cbn.
  - tauto.
  - rewrite !andb_true_iff, IH. tauto.
Qed.

(** The invariant holds along every disciplined run, and between any two
    of its states no status has moved backwards. *)
Lemma run_sound env ops w :
  inv w → single_proof env w ops = true → step_ok w (run env w ops).
Proof.
  revert w. induction ops as [|op ops IH]; intros w Hinv Hops.
  - by apply same_ok.
  - cbn in Hops. apply andb_true_iff in Hops as [Hop Hrest].
    apply andb_true_iff in Hop as [Hfresh Hfirst].
    destruct (step_sound env w op Hinv Hfresh Hfirst) as [Hinv' Hfwd'].
    destruct (IH _ Hinv' Hrest) as [Hinv'' Hfwd''].
    split; [exact Hinv''|]. intros j job Hjob.
    destruct (Hfwd' j job Hjob) as (job' & Hjob' & Hf').
    destruct (Hfwd'' j job' Hjob') as (job'' & Hjob'' & Hf'').
    exists job''. split; [exact Hjob''|]. by eapply forward_trans.
Qed.

Lemma run_app env w ops1 ops2 :
  run env w (ops1 ++ ops2) = run env (run env w ops1) ops2.
Proof. apply foldl_app. Qed.

Lemma forward_final s s' :
  rank s = 2%nat → forward s s' = true → s' = s.
Proof. by destruct s, s'. Qed.

(** C1, as stated, fails, in each direction that the amendment gives up.
    After a refused payment proof the job is [failed] and has no [error].
    A completed job that receives a second, refused proof is [failed] and
    still has its result. A job whose execution failed and that is then
    paid and executed again is [completed] and still has its error. *)
Lemma refused_proof_sets_no_error :
  feasible Demo.env initial Demo.refused_run = true ∧
  jobs (run Demo.env initial Demo.refused_run) !! "job-1"
    = Some Demo.refused_job ∧
  ¬ result_error_consistent Demo.refused_job ∧
  (λ job, (status job, result job, error job))
    <$> jobs (run Demo.env initial
                (Demo.completed_run
                   ++ [OpSubmitTx "job-1" "tx-2" (Demo.paying 3000000)]))
          !! "job-1"
    = Some (failed, Some Demo.crew_output, None) ∧
  (λ job, (status job, result job, error job))
    <$> jobs (run Demo.env initial Demo.retried_run) !! "job-1"
    = Some (completed, Some Demo.crew_output, Some "crew crashed") ∧
  feasible Demo.env initial Demo.retried_run = true ∧
  ¬ always_consistent Demo.env.
Proof.
  assert (Hf : feasible Demo.env initial Demo.refused_run = true)
    by (vm_compute; reflexivity).
  assert (Hj : jobs (run Demo.env initial Demo.refused_run) !! "job-1"
               = Some Demo.refused_job) by (vm_compute; reflexivity).
  assert (Hn : ¬ result_error_consistent Demo.refused_job).
  { intros [_ [_ He]]. destruct (He eq_refl) as [e He']. discriminate He'. }
  split; [exact Hf|]. split; [exact Hj|]. split; [exact Hn|].
  split; [vm_compute; reflexivity|].
  split; [vm_compute; reflexivity|].
  split; [vm_compute; reflexivity|].
  intros Hall. apply Hn. exact (Hall _ _ _ Hf Hj).
Qed.

(** C3, as stated, fails: a completed job for which a second, insufficient
    proof is submitted becomes [failed]; a third, sufficient proof then
    brings it back to [running]. *)
Lemma second_proof_moves_completed_job :
  feasible Demo.env initial
    (Demo.completed_run
       ++ [OpSubmitTx "job-1" "tx-2" (Demo.paying 3000000)]) = true ∧
  status <$> jobs (run Demo.env initial Demo.completed_run) !! "job-1"
    = Some completed ∧
  status <$> jobs (run Demo.env initial
                     (Demo.completed_run
                        ++ [OpSubmitTx "job-1" "tx-2" (Demo.paying 3000000)]))
               !! "job-1"
    = Some failed ∧
  status <$> jobs (run Demo.env initial
                     (Demo.completed_run
                        ++ [OpSubmitTx "job-1" "tx-2" (Demo.paying 3000000);
                            OpSubmitTx "job-1" "tx-3" (Demo.paying 15000000);
                            OpTaskStart]))
               !! "job-1"
    = Some running ∧
  forward completed failed = false ∧
  ¬ never_regresses Demo.env.
Proof.
  assert (Hf : feasible Demo.env initial
                 (Demo.completed_run
                    ++ [OpSubmitTx "job-1" "tx-2" (Demo.paying 3000000)])
               = true) by (vm_compute; reflexivity).
  split; [exact Hf|].
  split; [vm_compute; reflexivity|].
  split; [vm_compute; reflexivity|].
  split; [vm_compute; reflexivity|].
  split; [reflexivity|].
  intros Hall.
  destruct (jobs (run Demo.env initial Demo.completed_run) !! "job-1")
    as [job1|] eqn:H1; [|vm_compute in H1; discriminate H1].
  destruct (jobs (run Demo.env initial
                    (Demo.completed_run
                       ++ [OpSubmitTx "job-1" "tx-2" (Demo.paying 3000000)]))
              !! "job-1") as [job2|] eqn:H2;
    [|vm_compute in H2; discriminate H2].
  pose proof (Hall _ _ _ _ _ Hf H1 H2) as Hfwd.
  vm_compute in H1. injection H1 as <-.
  vm_compute in H2. injection H2 as <-.
  discriminate Hfwd.
Qed.




(** The scenario of the specification: 3,000,000 received against
    10,000,000 required. *)
Example refused_scenario :
  fst (submit_tx Demo.env (Demo.paying 3000000) "job-1" "tx-1" Demo.new_world)
    = Return (SubmitFailed
                {| ok := false;
                   details := DetailsPayment 3000000
                                [entry "addr_test1seller" 3000000] 10000000 |}) ∧
  jobs (snd (submit_tx Demo.env (Demo.paying 3000000) "job-1" "tx-1"
               Demo.new_world)) !! "job-1" = Some Demo.refused_job.
Proof. split; vm_compute; reflexivity. Qed.

(** C4, as stated, fails: after a refused proof, a later proof for the same
    job that verifies creates an execution task, and the job runs. *)
Lemma later_proof_runs_refused_job :
  jobs (snd (submit_tx Demo.env (Demo.paying 3000000) "job-1" "tx-1"
               Demo.new_world)) !! "job-1" = Some Demo.refused_job ∧
  feasible Demo.env
    (snd (submit_tx Demo.env (Demo.paying 3000000) "job-1" "tx-1"
            Demo.new_world))
    [OpSubmitTx "job-1" "tx-2" (Demo.paying 15000000)] = true ∧
  created
    (run Demo.env
       (snd (submit_tx Demo.env (Demo.paying 3000000) "job-1" "tx-1"
               Demo.new_world))
       [OpSubmitTx "job-1" "tx-2" (Demo.paying 15000000)])
    = [ {| task_job_id := "job-1"; task_payment_id := "tx-2" |} ] ∧
  status <$>
    jobs (run Demo.env
            (snd (submit_tx Demo.env (Demo.paying 3000000) "job-1" "tx-1"
                    Demo.new_world))
            [OpSubmitTx "job-1" "tx-2" (Demo.paying 15000000); OpTaskStart])
      !! "job-1" = Some running ∧
  ¬ no_execution_ever Demo.env (Demo.paying 3000000) "job-1" "tx-1"
      Demo.new_world.
Proof.
  split; [vm_compute; reflexivity|].
  split; [vm_compute; reflexivity|].
  split; [vm_compute; reflexivity|].
  split; [vm_compute; reflexivity|].
  intros Hclaim.
  destruct (Hclaim [OpSubmitTx "job-1" "tx-2" (Demo.paying 15000000)])
    as [Hcreated _].
  - vm_compute. reflexivity.
  - vm_compute in Hcreated. discriminate Hcreated.
Qed.

End Lifecycle.

(** ** More on the chain verifier *)

Module VerifierCoverage.
Import CardanoPayments Coverage.

Lemma scan_amounts_none addr amts acc :
  amounts_ok amts = false → scan_amounts addr amts acc = None.
Proof.
  revert acc. induction amts as [|amt amts IH]; intros acc Hbad; [done|].
  unfold amounts_ok in Hbad. cbn [forallb] in Hbad. cbn [scan_amounts].
  destruct (bool_decide (unit amt = Some "lovelace")).
  - destruct (int_quantity (quantity amt)) as [z|] eqn:Hq; [|done].
    rewrite bool_decide_eq_true_2 in Hbad by by eexists.
    by apply IH.
  - by apply IH.
Qed.

Lemma scan_outputs_none target outs acc :
  forallb (λ out, amounts_ok (default [] (amount out)))
          (filter (λ out, address out = Some target) outs) = false →
  scan_outputs target outs acc = None.
Proof.
  revert acc. induction outs as [|out outs IH]; intros acc Hbad; [done|].
  cbn [scan_outputs]. rewrite filter_cons in Hbad.
  destruct (decide (address out = Some target)) as [Heq|Hne].
  - rewrite (bool_decide_eq_true_2 _ Heq). cbn [forallb] in Hbad.
    destruct (amounts_ok (default [] (amount out))) eqn:Hout.
    + rewrite (CardanoPaymentsFacts.scan_amounts_sum _ _ _ Hout).
      by apply IH.
    + by rewrite (scan_amounts_none _ _ _ Hout).
  - rewrite (bool_decide_eq_false_2 _ Hne). by apply IH.
Qed.

Lemma verify_ok_data tx target minimum data :
  quantities_ok target data = true →
  verify_transaction_pay_to_address (HttpOk data) tx target minimum
  = Return {| ok := bool_decide (minimum ≤ received_sum target data);
              details := DetailsPayment (received_sum target data)
                           (matching_list target data) minimum |}.
Proof.
  intros Hok. unfold verify_transaction_pay_to_address.
  by rewrite (CardanoPaymentsFacts.scan_outputs_sum target _ (0, []) Hok).
Qed.

Lemma verify_bad_data tx target minimum data :
  quantities_ok target data = false →
  verify_transaction_pay_to_address (HttpOk data) tx target minimum
  = RaiseError "ValueError".
Proof.
  intros Hbad. unfold verify_transaction_pay_to_address.
  by rewrite (scan_outputs_none target _ (0, []) Hbad).
Qed.

Lemma sum_values_entries target l :
  sum_values (entry target <$> l) = foldr Z.add 0 l.
Proof.
  unfold sum_values. induction l as [|x l IH]; [done|].
  cbn. cbn in IH. by rewrite IH.
Qed.

(** X1. On an answer of the API the verifier raises [ValueError] exactly
    when some lovelace quantity of an output paying the seller does not
    convert to an integer; quantities of outputs to other addresses and of
    other units are never converted. *)
Theorem verifier_raises_iff tx target minimum data :
  (verify_transaction_pay_to_address (HttpOk data) tx target minimum
     = RaiseError "ValueError" ↔ quantities_ok target data = false) ∧
  ((∃ v, verify_transaction_pay_to_address (HttpOk data) tx target minimum
           = Return v) ↔ quantities_ok target data = true).
Proof.
  destruct (quantities_ok target data) eqn:Hq.
  - rewrite (verify_ok_data _ _ _ _ Hq). split; split; try done.
    by eexists.
  - rewrite (verify_bad_data _ _ _ _ Hq). split; split; try done.
    by intros [v Hv].
Qed.

Lemma verifier_raises_iff_witness :
  verify_transaction_pay_to_address
    (HttpOk {| outputs :=
                 Some [ {| address := Some "addr_test1seller";
                           amount := Some [ {| unit := Some "lovelace";
                                               quantity := QMalformed "1e7" |} ]
                        |} ] |})
    "tx-1" "addr_test1seller" 10000000
  = RaiseError "ValueError".
Proof.
  apply (verifier_raises_iff "tx-1" "addr_test1seller" 10000000).
  reflexivity.
Defined.

(** X2. Whenever the verifier returns payment details, the received amount
    is the sum of the values of the matching outputs it lists, every
    listed output carries the seller address, the required amount is the
    minimum asked for, and [ok] says whether the received amount reaches
    it. *)
Theorem verifier_details_add_up resp tx target minimum v r m req :
  verify_transaction_pay_to_address resp tx target minimum = Return v →
  details v = DetailsPayment r m req →
  r = sum_values m ∧
  Forall (λ o, mo_address o = target) m ∧
  req = minimum ∧
  (ok v = true ↔ minimum ≤ r).
Proof.
  destruct resp as [e|data].
  - intros [= <-]. discriminate.
  - destruct (quantities_ok target data) eqn:Hq.
    + rewrite (verify_ok_data _ _ _ _ Hq). intros [= <-]. cbn.
      intros [= <- <- <-]. split; [|split; [|split; [done|]]].
      * unfold matching_list. by rewrite sum_values_entries.
      * unfold matching_list. apply Forall_fmap, Forall_true. done.
      * apply bool_decide_eq_true.
    + by rewrite (verify_bad_data _ _ _ _ Hq).
Qed.

Lemma verifier_details_add_up_witness :
  15000000 = sum_values [entry "addr_test1seller" 15000000] ∧
  Forall (λ o, mo_address o = "addr_test1seller")
    [entry "addr_test1seller" 15000000] ∧
  10000000 = 10000000 ∧
  (ok Demo.good_verification = true ↔ 10000000 ≤ 15000000).
Proof.
  apply (verifier_details_add_up (Demo.paying 15000000) "tx-1"
           "addr_test1seller" 10000000 Demo.good_verification
           15000000 [entry "addr_test1seller" 15000000] 10000000).
  - reflexivity.
  - reflexivity.
Defined.

(** X3. When no output of the transaction carries the seller address (in
    particular when the answer has no [outputs] at all), the verifier
    reports 0 received and no matching output, and accepts only a minimum
    that is not positive. *)
Theorem verifier_nothing_received tx target minimum data :
  outputs_to target data = [] →
  verify_transaction_pay_to_address (HttpOk data) tx target minimum
  = Return {| ok := bool_decide (minimum ≤ 0);
              details := DetailsPayment 0 [] minimum |}.
Proof.
  intros Hnone.
  assert (Hq : quantities_ok target data = true).
  { unfold quantities_ok. by rewrite Hnone. }
  rewrite (verify_ok_data _ _ _ _ Hq).
  unfold received_sum, matching_list. by rewrite Hnone.
Qed.

Lemma verifier_nothing_received_witness :
  verify_transaction_pay_to_address (HttpOk {| outputs := None |}) "tx-1"
    "addr_test1seller" 10000000
  = Return {| ok := bool_decide (10000000 ≤ 0);
              details := DetailsPayment 0 [] 10000000 |}.
Proof.
  apply (verifier_nothing_received "tx-1" "addr_test1seller" 10000000
           {| outputs := None |}).
  reflexivity.
Defined.

(** X4. What the verifier finds does not depend on the minimum: a
    transaction accepted for one minimum is accepted for every smaller
    one, with the same received amount and matching outputs. *)
Theorem verifier_accepts_smaller_minimum resp tx target m1 m2 v r l :
  verify_transaction_pay_to_address resp tx target m1 = Return v →
  ok v = true →
  details v = DetailsPayment r l m1 →
  m2 ≤ m1 →
  verify_transaction_pay_to_address resp tx target m2
  = Return {| ok := true; details := DetailsPayment r l m2 |}.
Proof.
  destruct resp as [e|data].
  - by intros [= <-].
  - destruct (quantities_ok target data) eqn:Hq.
    + rewrite !(verify_ok_data _ _ _ _ Hq). intros [= <-]. cbn.
      intros Hok%bool_decide_eq_true [= <- <-] Hle.
      rewrite bool_decide_eq_true_2 by lia. done.
    + by rewrite (verify_bad_data _ _ _ _ Hq).
Qed.

Lemma verifier_accepts_smaller_minimum_witness :
  verify_transaction_pay_to_address (Demo.paying 15000000) "tx-1"
    "addr_test1seller" 5000000
  = Return {| ok := true;
              details := DetailsPayment 15000000
                           [entry "addr_test1seller" 15000000] 5000000 |}.
Proof.
  apply (verifier_accepts_smaller_minimum (Demo.paying 15000000) "tx-1"
           "addr_test1seller" 10000000 5000000 Demo.good_verification).
  - reflexivity.
  - reflexivity.
  - reflexivity.
  - lia.
Defined.

End VerifierCoverage.

(** ** More on the handlers of main.py *)

Module HandlerCoverage.
Import CardanoPayments CardanoNft Main Coverage Lifecycle.

(** The whole coroutine, written out: the job after it, the handle
    removed, and the outside calls in order. *)
Lemma handle_payment_status_effect env out cr j pid w job :
  jobs w !! j = Some job →
  ∃ w', handle_payment_status env out cr j pid w = Some w' ∧
    jobs w'
      = <[j := match out with
                | ExecReturns res =>
                    finish_success env j res (tx_logs w !! j)
                      (set_status running job)
                | ExecRaises e => finish_failure e (set_status running job)
                end]> (jobs w) ∧
    payment_instances w' = delete j (payment_instances w) ∧
    tx_logs w' = tx_logs w ∧
    created w' = created w ∧
    suspended w' = suspended w ∧
    calls w'
      = calls w ++
          kickoff_call (input_data job) ::
          match payment_instances w !! j with
          | Some _ =>
              match out with
              | ExecReturns res =>
                  [CallCompletePayment j pid (result_dict_of res)]
              | ExecRaises _ => []
              end ++ [CallStopMonitoring j]
          | None => []
          end.
Proof.
  intros Hjob.
  unfold handle_payment_status, handle_payment_status_enter. rewrite Hjob.
  unfold handle_payment_status_resume. world_simpl.
  rewrite lookup_alter_eq, Hjob. cbn [fmap option_fmap option_map].
  unfold handle_payment_status_except, release_payment, finish_success,
    finish_failure.
  destruct out as [res|e]; destruct (payment_instances w !! j) as [p|] eqn:Hp;
    world_simpl; rewrite ?Hp;
    try (destruct (tx_logs w !! j) as [l|] eqn:Hl); world_simpl; rewrite ?Hp;
    (eexists; split; [reflexivity|]); world_simpl;
    rewrite (alter_known _ _ _ _ Hjob), ?alter_insert_eq;
    rewrite <- ?app_assoc, ?(delete_id _ _ Hp);
    by repeat split.
Qed.

(** X5. When [PAYMENT_AMOUNT] is set to something [int] rejects, a request
    that carries a text is answered 400, yet its job has already been
    stored: the amount is read only while the response is built. *)
Theorem start_job_bad_amount env j data w bad :
  PAYMENT_AMOUNT env = IntInvalid bad →
  is_Some (req_input_data data !! "text") →
  ∃ d job, start_job env j data w
             = (RaiseHTTP 400 d, with_jobs (insert j job) w) ∧
           status job = awaiting_payment.
Proof.
  intros Hbad [t Ht]. unfold start_job. rewrite Ht, Hbad. cbn.
  by eexists _, _.
Qed.

Lemma start_job_bad_amount_witness :
  ∃ d job,
    start_job {| SELLER_ADDRESS := Some "addr_test1seller";
                 PAYMENT_AMOUNT := IntInvalid "ten";
                 CERT_OWNER_ADDRESS := None; MOCK_POLICY_ID := None |}
      "job-1" (Demo.request "hello") initial
      = (RaiseHTTP 400 d, with_jobs (insert "job-1" job) initial) ∧
    status job = awaiting_payment.
Proof.
  apply (start_job_bad_amount _ "job-1" (Demo.request "hello") initial "ten").
  - reflexivity.
  - vm_compute. by eexists.
Defined.

(** X6. The amount and the address that [start_job] tells the purchaser
    are the ones [submit_tx] hands to the verifier: both read
    [PAYMENT_AMOUNT] (default 10,000,000) and [SELLER_ADDRESS]. *)
Theorem advertised_terms_are_verified env j data w r w1 resp j2 tx w2 job
    seller :
  start_job env j data w = (Return r, w1) →
  jobs w2 !! j2 = Some job →
  nonempty (SELLER_ADDRESS env) = Some seller →
  sj_seller_address r = Some seller ∧
  calls (snd (submit_tx env resp j2 tx w2))
    = calls w2 ++ [CallVerify tx seller (sj_required_lovelace r)].
Proof.
  unfold start_job, submit_tx. intros Hstart Hjob Hseller.
  rewrite Hjob, Hseller.
  destruct (req_input_data data !! "text"); [|done].
  destruct (int_getenv (PAYMENT_AMOUNT env) 10000000) as [required|];
    [|done].
  injection Hstart as <- _. cbn [sj_seller_address sj_required_lovelace].
  split.
  - unfold nonempty in Hseller.
    destruct (SELLER_ADDRESS env) as [addr|]; [|done].
    by destruct (bool_decide (addr = "")); simplify_eq.
  - destruct (verify_transaction_pay_to_address resp tx seller required)
      as [v|c d|e]; [destruct (ok v)|..]; done.
Qed.

Lemma advertised_terms_are_verified_witness :
  Some "addr_test1seller" = Some "addr_test1seller" ∧
  calls (snd (submit_tx Demo.env (Demo.paying 3000000) "job-1" "tx-1"
                Demo.new_world))
    = calls Demo.new_world
        ++ [CallVerify "tx-1" "addr_test1seller" 10000000].
Proof.
  apply (advertised_terms_are_verified Demo.env "job-1"
           (Demo.request "hello") initial
           {| sj_status := "pending_payment"; sj_job_id := "job-1";
              sj_message := "Send a small ADA payment to the seller address and POST /submit_tx with tx_hash";
              sj_seller_address := Some "addr_test1seller";
              sj_required_lovelace := 10000000 |}
           Demo.new_world (Demo.paying 3000000) "job-1" "tx-1"
           Demo.new_world Demo.new_job "addr_test1seller").
  - vm_compute. reflexivity.
  - vm_compute. reflexivity.
  - reflexivity.
Defined.

(** X7. For a known job, [submit_tx] answers 500 when [SELLER_ADDRESS] is
    unset or empty, and lets a [ValueError] escape when [PAYMENT_AMOUNT]
    does not convert; in both cases the state is unchanged and the
    verifier is not called. *)
Theorem submit_tx_misconfigured env resp j tx w job :
  jobs w !! j = Some job →
  (SELLER_ADDRESS env = None ∨ SELLER_ADDRESS env = Some "" →
   submit_tx env resp j tx w
     = (RaiseHTTP 500 "SELLER_ADDRESS not configured on server", w)) ∧
  (∀ seller bad,
     nonempty (SELLER_ADDRESS env) = Some seller →
     PAYMENT_AMOUNT env = IntInvalid bad →
     submit_tx env resp j tx w = (RaiseError "ValueError", w)).
Proof.
  intros Hjob. unfold submit_tx. rewrite Hjob. split.
  - by intros [-> | ->].
  - intros seller bad -> ->. done.
Qed.

Lemma submit_tx_misconfigured_witness :
  submit_tx {| SELLER_ADDRESS := Some ""; PAYMENT_AMOUNT := IntUnset;
               CERT_OWNER_ADDRESS := None; MOCK_POLICY_ID := None |}
    (Demo.paying 15000000) "job-1" "tx-1" Demo.new_world
  = (RaiseHTTP 500 "SELLER_ADDRESS not configured on server", Demo.new_world).
Proof.
  apply (submit_tx_misconfigured _ (Demo.paying 15000000) "job-1" "tx-1"
           Demo.new_world Demo.new_job).
  - vm_compute. reflexivity.
  - by right.
Defined.

(** X8. With no payment handle registered for the id, [get_status] changes
    nothing and makes no outside call, whatever the id and whatever the
    payment service would have answered. *)
Theorem get_status_reads_only chk j w :
  payment_instances w !! j = None →
  snd (get_status chk j w) = w.
Proof.
  intros Hp. unfold get_status. destruct (jobs w !! j); [|done].
  rewrite Hp. by rewrite bool_decide_eq_false_2 by (intros [? ?]; done).
Qed.

Lemma get_status_reads_only_witness :
  snd (get_status (CheckRaises "down") "job-1" Demo.done_world)
  = Demo.done_world.
Proof.
  apply (get_status_reads_only (CheckRaises "down") "job-1" Demo.done_world).
  vm_compute. reflexivity.
Defined.

(** X9. With a payment handle registered, [get_status] asks the payment
    service once, stores what it learns in the job's [payment_status]
    ("unknown" on a [ValueError], "error" on any other exception) and
    shows it in the view; the job's status and every other field are left
    as they were. *)
Theorem get_status_refreshes chk j w job p :
  jobs w !! j = Some job →
  payment_instances w !! j = Some p →
  ∃ view w',
    get_status chk j w = (Return view, w') ∧
    view_payment_status view = refreshed_status chk ∧
    view_status view = status job ∧
    jobs w' = <[j := set_payment_status (refreshed_status chk) job]> (jobs w) ∧
    calls w' = calls w ++ [CallCheckPaymentStatus j] ∧
    (∀ e, chk = CheckValueError e → view_payment_status view = Some "unknown") ∧
    (∀ e, chk = CheckRaises e → view_payment_status view = Some "error").
Proof.
  intros Hjob Hp. unfold get_status. rewrite Hjob, Hp.
  rewrite bool_decide_eq_true_2 by by eexists.
  eexists _, _. split; [reflexivity|]. world_simpl.
  rewrite (alter_known _ _ _ _ Hjob).
  repeat split; by intros e ->.
Qed.

Lemma get_status_refreshes_witness :
  ∃ view w',
    get_status (CheckValueError "bad id") "job-1" Demo.tracked_world
      = (Return view, w') ∧
    view_payment_status view = refreshed_status (CheckValueError "bad id") ∧
    view_status view = status Demo.paid_job ∧
    jobs w' = <["job-1" := set_payment_status
                             (refreshed_status (CheckValueError "bad id"))
                             Demo.paid_job]> (jobs Demo.tracked_world) ∧
    calls w' = calls Demo.tracked_world ++ [CallCheckPaymentStatus "job-1"] ∧
    (∀ e, CheckValueError "bad id" = CheckValueError e →
          view_payment_status view = Some "unknown") ∧
    (∀ e, CheckValueError "bad id" = CheckRaises e →
          view_payment_status view = Some "error").
Proof.
  apply (get_status_refreshes (CheckValueError "bad id") "job-1"
           Demo.tracked_world Demo.paid_job {| payment_ref := "masumi-1" |}).
  - vm_compute. reflexivity.
  - vm_compute. reflexivity.
Defined.

(** X10. After an execution that returned an output object with a [raw]
    attribute, [get_status] shows the job completed, its payment
    completed, that [raw] value as result and the logged transaction; it
    makes no outside call, because the payment handle is gone. *)
Theorem completed_job_is_shown env cr j pid w job o v chk :
  jobs w !! j = Some job →
  raw o = Some v →
  ∃ w', handle_payment_status env (ExecReturns (ResObject o)) cr j pid w
          = Some w' ∧
        get_status chk j w'
          = (Return {| view_job_id := j;
                       view_status := completed;
                       view_payment_status := Some "completed";
                       view_result := v;
                       view_tx := match tx_logs w !! j with
                                  | Some l => Some l
                                  | None => tx job
                                  end |}, w').
Proof.
  intros Hjob Hraw.
  destruct (handle_payment_status_effect env (ExecReturns (ResObject o)) cr
              j pid w job Hjob)
    as (w' & Hrun & Hjobs & Hp & _).
  exists w'. split; [exact Hrun|].
  unfold get_status. rewrite Hjobs, lookup_insert_eq, Hp, lookup_delete_eq.
  rewrite bool_decide_eq_false_2 by (intros [? ?]; done).
  unfold finish_success.
  destruct (tx_logs w !! j); cbn; rewrite Hraw;
    (rewrite bool_decide_eq_true_2 by by eexists); done.
Qed.

Lemma completed_job_is_shown_witness :
  ∃ w', handle_payment_status Demo.env (ExecReturns Demo.crew_output) false
          "job-1" "tx-1" Demo.tracked_world = Some w' ∧
        get_status (CheckRaises "down") "job-1" w'
          = (Return {| view_job_id := "job-1";
                       view_status := completed;
                       view_payment_status := Some "completed";
                       view_result := PyStr "Dear Alice, ...";
                       view_tx :=
                         match tx_logs Demo.tracked_world !! "job-1" with
                         | Some l => Some l
                         | None => tx Demo.paid_job
                         end |}, w').
Proof.
  apply (completed_job_is_shown Demo.env false "job-1" "tx-1"
           Demo.tracked_world Demo.paid_job
           {| json_dict := None; raw := Some (PyStr "Dear Alice, ...");
              to_str := "Dear Alice, ..." |}
           (PyStr "Dear Alice, ...") (CheckRaises "down")).
  - vm_compute. reflexivity.
  - reflexivity.
Defined.

(** X11. The outside calls of one execution phase, in order: the crew is
    started; if a payment handle is registered, the payment service is
    told of the completion only when the crew returned, and monitoring is
    stopped last; with no handle the crew is the only call. *)
Theorem execution_calls_in_order env out cr j pid w job :
  jobs w !! j = Some job →
  ∃ w', handle_payment_status env out cr j pid w = Some w' ∧
    calls w'
      = calls w ++
          kickoff_call (input_data job) ::
          match payment_instances w !! j with
          | Some _ =>
              match out with
              | ExecReturns res =>
                  [CallCompletePayment j pid (result_dict_of res)]
              | ExecRaises _ => []
              end ++ [CallStopMonitoring j]
          | None => []
          end.
Proof.
  intros Hjob.
  destruct (handle_payment_status_effect env out cr j pid w job Hjob)
    as (w' & Hrun & _ & _ & _ & _ & _ & Hcalls).
  by exists w'.
Qed.

Lemma execution_calls_in_order_witness :
  ∃ w', handle_payment_status Demo.env (ExecReturns Demo.crew_output) false
          "job-1" "tx-1" Demo.tracked_world = Some w' ∧
    calls w'
      = calls Demo.tracked_world ++
          kickoff_call (input_data Demo.paid_job) ::
          match payment_instances Demo.tracked_world !! "job-1" with
          | Some _ =>
              [CallCompletePayment "job-1" "tx-1"
                 (result_dict_of Demo.crew_output)]
              ++ [CallStopMonitoring "job-1"]
          | None => []
          end.
Proof.
  apply (execution_calls_in_order Demo.env (ExecReturns Demo.crew_output)
           false "job-1" "tx-1" Demo.tracked_world Demo.paid_job).
  vm_compute. reflexivity.
Defined.

(** X12. What one execution phase writes. It touches only its own job and
    keeps that job's transaction hash and inputs. On success it sets
    status and payment status to completed, stores the result, copies the
    logged transaction, mints the certificate for [CERT_OWNER_ADDRESS] or
    "unknown", and leaves an earlier [error] in place. On failure it sets
    status failed and the error, and leaves payment status, an earlier
    result, the transaction and the certificate in place. *)
Theorem execution_writes env out cr j pid w job :
  jobs w !! j = Some job →
  ∃ w' job',
    handle_payment_status env out cr j pid w = Some w' ∧
    jobs w' !! j = Some job' ∧
    (∀ j', j' ≠ j → jobs w' !! j' = jobs w !! j') ∧
    tx_logs w' = tx_logs w ∧
    created w' = created w ∧
    suspended w' = suspended w ∧
    tx_hash job' = tx_hash job ∧
    input_data job' = input_data job ∧
    identifier_from_purchaser job' = identifier_from_purchaser job ∧
    match out with
    | ExecReturns res =>
        status job' = completed ∧
        payment_status job' = Some "completed" ∧
        result job' = Some res ∧
        error job' = error job ∧
        tx job' = match tx_logs w !! j with
                  | Some l => Some l
                  | None => tx job
                  end ∧
        nft job'
          = Some {| policy_id :=
                      default "mockpolicy1234567890" (MOCK_POLICY_ID env);
                    token_name := "Certificate-" +:+ j;
                    owner :=
                      default "unknown" (nonempty (CERT_OWNER_ADDRESS env));
                    metadata :=
                      {| md_job_id := Some j;
                         md_identifier :=
                           Some (identifier_from_purchaser job) |} |}
    | ExecRaises e =>
        status job' = failed ∧
        error job' = Some e ∧
        payment_status job' = payment_status job ∧
        result job' = result job ∧
        tx job' = tx job ∧
        nft job' = nft job
    end.
Proof.
  intros Hjob.
  destruct (handle_payment_status_effect env out cr j pid w job Hjob)
    as (w' & Hrun & Hjobs & _ & Hlogs & Hcr & Hsu & _).
  eexists w', _. split; [exact Hrun|].
  split; [by rewrite Hjobs, lookup_insert_eq|].
  split; [intros j' Hne; by rewrite Hjobs, lookup_insert_ne|].
  do 3 (split; [done|]).
  destruct out as [res|e].
  - unfold finish_success. destruct (tx_logs w !! j); by repeat split.
  - by repeat split.
Qed.

Lemma execution_writes_witness :
  ∃ w' job',
    handle_payment_status Demo.env (ExecRaises "crew crashed") false
      "job-1" "tx-1" Demo.done_world = Some w' ∧
    jobs w' !! "job-1" = Some job' ∧
    (∀ j', j' ≠ "job-1" → jobs w' !! j' = jobs Demo.done_world !! j') ∧
    tx_logs w' = tx_logs Demo.done_world ∧
    created w' = created Demo.done_world ∧
    suspended w' = suspended Demo.done_world ∧
    tx_hash job' = tx_hash Demo.done_job ∧
    input_data job' = input_data Demo.done_job ∧
    identifier_from_purchaser job'
      = identifier_from_purchaser Demo.done_job ∧
    (status job' = failed ∧
     error job' = Some "crew crashed" ∧
     payment_status job' = payment_status Demo.done_job ∧
     result job' = result Demo.done_job ∧
     tx job' = tx Demo.done_job ∧
     nft job' = nft Demo.done_job).
Proof.
  apply (execution_writes Demo.env (ExecRaises "crew crashed") false
           "job-1" "tx-1" Demo.done_world Demo.done_job).
  vm_compute. reflexivity.
Defined.

(** X13. The value handed to [complete_payment] is never [None]: it is the
    [json_dict] of the output when that is truthy, else its [raw] when
    that is truthy (an absent, [None] or empty attribute falls through),
    else the string form; for a plain string it is that string. *)
Theorem result_dict_never_none r :
  result_dict_of r ≠ PyNone ∧
  (∀ s, r = ResText s → result_dict_of r = PyStr s) ∧
  (∀ o v, r = ResObject o → json_dict o = Some v → truthy v = true →
          result_dict_of r = v) ∧
  (∀ o v, r = ResObject o → truthy (default PyNone (json_dict o)) = false →
          raw o = Some v → truthy v = true → result_dict_of r = v) ∧
  (∀ o, r = ResObject o → truthy (default PyNone (json_dict o)) = false →
        truthy (default PyNone (raw o)) = false →
        result_dict_of r = PyStr (to_str o)).
Proof.
  split; [|split; [|split; [|split]]].
  - destruct r as [s|o]; [done|]. unfold result_dict_of, py_or.
    destruct (default PyNone (json_dict o)) as [|s|d] eqn:Hj; cbn.
    + destruct (default PyNone (raw o)) as [|s'|d'] eqn:Hr; cbn; [done|..].
      * by destruct (bool_decide (s' = "")).
      * by destruct (bool_decide (d' = [])).
    + destruct (bool_decide (s = "")) eqn:Hs; cbn; rewrite ?Hs; cbn.
      * destruct (default PyNone (raw o)) as [|s'|d'] eqn:Hr; cbn; [done|..].
        -- by destruct (bool_decide (s' = "")).
        -- by destruct (bool_decide (d' = [])).
      * done.
    + destruct (bool_decide (d = [])) eqn:Hd; cbn; rewrite ?Hd; cbn.
      * destruct (default PyNone (raw o)) as [|s'|d'] eqn:Hr; cbn; [done|..].
        -- by destruct (bool_decide (s' = "")).
        -- by destruct (bool_decide (d' = [])).
      * done.
  - by intros s ->.
  - intros o v -> Hj Hv. unfold result_dict_of, py_or. rewrite Hj.
    change (default PyNone (Some v)) with v. by rewrite Hv, Hv.
  - intros o v -> Hj Hr Hv. unfold result_dict_of, py_or.
    rewrite Hj, Hr. change (default PyNone (Some v)) with v.
    by rewrite Hv.
  - intros o -> Hj Hr. unfold result_dict_of, py_or. by rewrite Hj, Hr.
Qed.

Lemma result_dict_never_none_witness :
  result_dict_of Demo.crew_output = PyStr "Dear Alice, ...".
Proof.
  destruct (result_dict_never_none Demo.crew_output) as (_ & _ & _ & Hraw & _).
  apply (Hraw {| json_dict := None; raw := Some (PyStr "Dear Alice, ...");
                 to_str := "Dear Alice, ..." |} (PyStr "Dear Alice, ..."));
    reflexivity.
Defined.

(** X14. The crew is always started with one of the tasks "research",
    "summarize", "reply": any other [task_type], and a missing one, means
    "reply". For a job's input dictionary the text is its ["text"] entry,
    or the empty string, exactly as [handle_payment_status] logs it. *)
Theorem crew_task_is_one_of_three input_data :
  (ki_task (execute_crew_task input_data) = "research" ∨
   ki_task (execute_crew_task input_data) = "summarize" ∨
   ki_task (execute_crew_task input_data) = "reply") ∧
  (∀ d, input_data = InputDict d →
        d !! "task_type" ≠ Some "research" →
        d !! "task_type" ≠ Some "summarize" →
        ki_task (execute_crew_task input_data) = "reply") ∧
  (∀ d, input_data = InputDict d →
        kickoff_call d
        = CallKickoff (default "" (ki_text (execute_crew_task input_data)))
            (ki_task (execute_crew_task input_data))).
Proof.
  split; [|split].
  - unfold execute_crew_task.
    destruct (bool_decide _); [by left|].
    destruct (bool_decide _); [by right; left|by right; right].
  - intros d -> Hr Hs. unfold execute_crew_task, inputs_of.
    rewrite lookup_fmap.
    destruct (d !! "task_type") as [t|] eqn:Ht; cbn.
    + rewrite !bool_decide_eq_false_2; [done|congruence..].
    + done.
  - intros d ->. unfold kickoff_call, task_of, execute_crew_task, inputs_of.
    rewrite !lookup_fmap.
    destruct (d !! "task_type") as [t|] eqn:Ht; cbn.
    + destruct (decide (t = "research")) as [->|Hr].
      { rewrite !bool_decide_eq_true_2 by done.
        by destruct (d !! "text"). }
      rewrite (bool_decide_eq_false_2 (t = "research")) by done.
      rewrite (bool_decide_eq_false_2 (Some t = Some "research"))
        by congruence.
      destruct (decide (t = "summarize")) as [->|Hs].
      { rewrite !bool_decide_eq_true_2 by done.
        by destruct (d !! "text"). }
      rewrite (bool_decide_eq_false_2 (t = "summarize")) by done.
      rewrite (bool_decide_eq_false_2 (Some t = Some "summarize"))
        by congruence.
      by destruct (d !! "text").
    + by destruct (d !! "text").
Qed.

Lemma crew_task_is_one_of_three_witness :
  ki_task (execute_crew_task
             (InputDict {[ "text" := "hello"; "task_type" := "translate" ]}))
  = "reply".
Proof.
  destruct (crew_task_is_one_of_three
              (InputDict {[ "text" := "hello"; "task_type" := "translate" ]}))
    as (_ & Hother & _).
  apply (Hother {[ "text" := "hello"; "task_type" := "translate" ]}).
  - reflexivity.
  - vm_compute. discriminate.
  - vm_compute. discriminate.
Defined.

(** X15. [force_run] starts the crew on the request's text alone, so the
    task is always "reply", also when the request asks for another
    [task_type]; a request without text starts the crew on [None]. An
    exception of the crew is not caught. *)
Theorem force_run_always_replies out data :
  fst (force_run out data)
    = {| ki_text := req_input_data data !! "text"; ki_task := "reply" |} ∧
  (∀ e, out = ExecRaises e → snd (force_run out data) = RaiseError e) ∧
  (∀ r, out = ExecReturns r → snd (force_run out data) = Return r).
Proof.
  split; [|split].
  - unfold force_run, execute_crew_task, inputs_of. cbn [fst].
    rewrite lookup_singleton_ne by done. cbn.
    by rewrite lookup_singleton_eq.
  - by intros e ->.
  - by intros r ->.
Qed.

Lemma force_run_always_replies_witness :
  fst (force_run (ExecRaises "crew crashed")
         {| req_identifier_from_purchaser := "purchaser-1";
            req_input_data := {[ "text" := "hello";
                                 "task_type" := "research" ]} |})
    = {| ki_text := Some "hello"; ki_task := "reply" |} ∧
  snd (force_run (ExecRaises "crew crashed")
         {| req_identifier_from_purchaser := "purchaser-1";
            req_input_data := {[ "text" := "hello";
                                 "task_type" := "research" ]} |})
    = RaiseError "crew crashed".
Proof.
  destruct (force_run_always_replies (ExecRaises "crew crashed")
              {| req_identifier_from_purchaser := "purchaser-1";
                 req_input_data := {[ "text" := "hello";
                                      "task_type" := "research" ]} |})
    as (Hkick & Hraise & _).
  split.
  - rewrite Hkick. vm_compute. reflexivity.
  - by apply (Hraise "crew crashed").
Defined.

(** X16. Certificates of different jobs have different token names: the
    name is "Certificate-" followed by the job id. Metadata without a job
    id gets the name of a job called "unknown". *)
Theorem certificate_names_differ env o1 o2 md1 md2 j1 j2 :
  md_job_id md1 = Some j1 →
  md_job_id md2 = Some j2 →
  j1 ≠ j2 →
  token_name (mint_certificate_nft_mock env o1 md1)
    ≠ token_name (mint_certificate_nft_mock env o2 md2).
Proof.
  unfold mint_certificate_nft_mock. cbn [token_name]. intros -> -> Hne.
  cbn. intros H. by simplify_eq.
Qed.

Lemma certificate_names_differ_witness :
  token_name (mint_certificate_nft_mock Demo.env "owner"
                {| md_job_id := Some "job-1"; md_identifier := None |})
  ≠ token_name (mint_certificate_nft_mock Demo.env "owner"
                  {| md_job_id := Some "job-10"; md_identifier := None |}).
Proof.
  apply (certificate_names_differ Demo.env "owner" "owner"
           {| md_job_id := Some "job-1"; md_identifier := None |}
           {| md_job_id := Some "job-10"; md_identifier := None |}
           "job-1" "job-10").
  - reflexivity.
  - reflexivity.
  - discriminate.
Defined.

Example certificate_name_without_job_id :
  token_name (mint_certificate_nft_mock Demo.env "owner"
                {| md_job_id := None; md_identifier := None |})
  = token_name (mint_certificate_nft_mock Demo.env "owner"
                  {| md_job_id := Some "unknown"; md_identifier := None |}).
Proof. reflexivity. Qed.

End HandlerCoverage.

(** ** Every run of the service *)

Module RunCoverage.
Import CardanoPayments CardanoNft Main Coverage Lifecycle.

Lemma resume_no_handle env out cr j pid w job :
  payment_instances w = ∅ → jobs w !! j = Some job →
  ∃ w', handle_payment_status_resume env out cr j pid w = Some w' ∧
    changes w w'
      (<[j := match out with
               | ExecReturns res =>
                   finish_success env j res (tx_logs w !! j) job
               | ExecRaises e => finish_failure e job
               end]> (jobs w))
      (tx_logs w) (created w) (suspended w) [].
Proof.
  intros Hh Hjob. unfold handle_payment_status_resume. rewrite Hjob.
  unfold handle_payment_status_except, finish_success, finish_failure.
  destruct out as [res|e].
  - rewrite Hh, lookup_empty.
    destruct (tx_logs w !! j) as [l|] eqn:Hl; world_simpl; rewrite Hl;
      (eexists; split; [reflexivity|]);
      rewrite release_payment_none by done; changes_tac;
      by rewrite (alter_known _ _ _ _ Hjob), ?alter_insert_eq.
  - eexists. split; [reflexivity|].
    rewrite release_payment_none by done. changes_tac.
    by rewrite (alter_known _ _ _ _ Hjob), ?alter_insert_eq.
Qed.

Lemma status_query_noop chk j w :
  payment_instances w !! j = None → snd (get_status chk j w) = w.
Proof.
  intros Hp. unfold get_status. destruct (jobs w !! j); [|done].
  rewrite Hp. by rewrite bool_decide_eq_false_2 by (intros [? ?]; done).
Qed.

(** Each operation, applied where no payment handle is registered, has one
    of the listed effects. *)
Lemma step_effect env w op :
  payment_instances w = ∅ → fresh_id w op = true →
  effect env w (step env w op).
Proof.
  intros Hh Hfresh.
  destruct op as [j data|j tx resp|j chk| |i out cr|data out]; cbn [step].
  6:{ apply (eff_force_run env w _ (req_input_data data !! "text")).
      unfold force_run_step. changes_tac. }
  - apply bool_decide_eq_true in Hfresh. unfold start_job.
    destruct (req_input_data data !! "text"); [|apply eff_none; changes_tac].
    destruct (int_getenv (PAYMENT_AMOUNT env) 10000000);
      (apply (eff_start env w _ j data); [exact Hfresh|changes_tac]).
  - unfold submit_tx.
    destruct (jobs w !! j) as [job|] eqn:Hjob; [|apply eff_none; changes_tac].
    destruct (nonempty (SELLER_ADDRESS env)) as [seller|];
      [|apply eff_none; changes_tac].
    destruct (int_getenv (PAYMENT_AMOUNT env) 10000000) as [required|];
      [|apply eff_none; changes_tac].
    destruct (verify_transaction_pay_to_address resp tx seller required)
      as [v|c d|e] eqn:Hver.
    + destruct (ok v) eqn:Hok; cbn [negb].
      * apply (eff_accept env w _ j job tx seller required resp v);
          [exact Hjob|exact Hver|exact Hok|changes_tac].
        by rewrite (alter_known _ _ _ _ Hjob), ?alter_insert_eq.
      * apply (eff_refuse env w _ j job tx seller required);
          [exact Hjob|changes_tac].
        by rewrite (alter_known _ _ _ _ Hjob), ?alter_insert_eq.
    + apply (eff_verifier_raised env w _ tx seller required). changes_tac.
    + apply (eff_verifier_raised env w _ tx seller required). changes_tac.
  - rewrite status_query_noop by (by rewrite Hh, lookup_empty).
    apply eff_none. changes_tac.
  - unfold task_start.
    destruct (created w) as [|t rest] eqn:Hq;
      [apply eff_none; changes_tac; by rewrite ?Hq|].
    unfold handle_payment_status_enter. world_simpl.
    destruct (jobs w !! task_job_id t) as [job|] eqn:Hjob.
    + apply (eff_enter env w _ t rest job); [exact Hq|exact Hjob|changes_tac].
      by rewrite (alter_known _ _ _ _ Hjob).
    + apply (eff_drop env w _ t rest); [exact Hq|exact Hjob|changes_tac].
  - unfold task_resume.
    destruct (suspended w !! i) as [t|] eqn:Hi; [|apply eff_none; changes_tac].
    destruct (jobs w !! task_job_id t) as [job|] eqn:Hjob.
    + destruct (resume_no_handle env out cr (task_job_id t)
                  (task_payment_id t) (with_suspended (delete i) w) job)
        as (w' & Hrun & Hch); [exact Hh|exact Hjob|].
      rewrite Hrun. unfold changes in Hch. world_simpl_in Hch.
      destruct out as [res|e].
      * by apply (eff_success env w _ i t job res).
      * by apply (eff_failure env w _ i t job e).
    + unfold handle_payment_status_resume. world_simpl. rewrite Hjob.
      apply (eff_lost env w _ i t); [exact Hi|exact Hjob|changes_tac].
Qed.

Lemma effect_handles env w w' :
  effect env w w' → payment_instances w' = payment_instances w.
Proof.
  destruct 1;
    match goal with
    | H : changes _ _ _ _ _ _ _ |- _ => by destruct H as (_ & Hp & _)
    end.
Qed.

(** Along a feasible run no payment handle appears, and a property kept by
    every effect holds at the end. *)
Lemma run_effect_ind env (P : World → Prop) :
  (∀ w w', payment_instances w = ∅ → P w → effect env w w' → P w') →
  ∀ ops w, payment_instances w = ∅ → P w → feasible env w ops = true →
           P (run env w ops) ∧ payment_instances (run env w ops) = ∅.
Proof.
  intros Hstep. induction ops as [|op ops IH]; intros w Hh HP Hops; [done|].
  unfold feasible in Hops. cbn [all_along] in Hops.
  apply andb_true_iff in Hops as [Hfresh Hrest].
  pose proof (step_effect env w op Hh Hfresh) as Heff.
  apply (IH (step env w op)); [|by eapply Hstep|exact Hrest].
  by rewrite (effect_handles _ _ _ Heff).
Qed.

Lemma accepted_details resp tx seller required v :
  verify_transaction_pay_to_address resp tx seller required = Return v →
  ok v = true →
  ∃ r m, details v = DetailsPayment r m required ∧ required ≤ r.
Proof.
  unfold verify_transaction_pay_to_address. destruct resp as [e|data].
  - by intros [= <-].
  - destruct (scan_outputs _ _ _) as [[r m]|]; [|done].
    intros [= <-]. cbn. intros Hok%bool_decide_eq_true. by exists r, m.
Qed.

(** *** The payment gate *)

Lemma gate_initial : gate initial.
Proof.
  split; cbn; try done.
  - intros t Ht. by apply elem_of_nil in Ht.
Qed.

Lemma gate_same w w' :
  gate w → jobs w' = jobs w → tx_logs w' = tx_logs w →
  (∀ t, t ∈ created w' ++ suspended w' → t ∈ created w ++ suspended w) →
  gate w'.
Proof.
  intros [Hhash Htouched Hlogs Htasks Hpaid] Ej El Hsub. split.
  - intros j job. rewrite Ej, El. apply Hhash.
  - intros j job. rewrite Ej. apply Htouched.
  - intros j. rewrite Ej, El. apply Hlogs.
  - intros t Ht. rewrite Ej. by apply Htasks, Hsub.
  - intros j l. rewrite El. apply Hpaid.
Qed.

Lemma gate_update w w' j job job' :
  gate w → jobs w !! j = Some job →
  jobs w' = <[j := job']> (jobs w) → tx_logs w' = tx_logs w →
  tx_hash job' = tx_hash job →
  (touched job' → touched job ∨ is_Some (tx_hash job)) →
  (∀ t, t ∈ created w' ++ suspended w' → t ∈ created w ++ suspended w) →
  gate w'.
Proof.
  intros [Hhash Htouched Hlogs Htasks Hpaid] Hjob Ej El Hh Ht Hsub. split.
  - intros j0 job0. rewrite Ej, El, lookup_insert. case_decide as Hjj.
    + subst j0. intros [= <-]. rewrite Hh. by apply Hhash.
    + apply Hhash.
  - intros j0 job0. rewrite Ej, lookup_insert. case_decide as Hjj.
    + subst j0. intros [= <-] Hto. rewrite Hh.
      destruct (Ht Hto) as [Hold|Hsome]; [by eapply Htouched|done].
    + apply Htouched.
  - intros j0. rewrite Ej, El, lookup_insert. case_decide; [done|].
    apply Hlogs.
  - intros t Hin. destruct (Htasks t (Hsub t Hin)) as (job0 & Hjob0 & Hs).
    rewrite Ej, lookup_insert. case_decide as Hjj.
    + subst j. rewrite Hjob in Hjob0. injection Hjob0 as <-.
      exists job'. by rewrite Hh.
    + by exists job0.
  - intros j0 l. rewrite El. apply Hpaid.
Qed.

Lemma finish_success_hash env j res l job :
  tx_hash (finish_success env j res l job) = tx_hash job.
Proof. unfold finish_success. by destruct l. Qed.

Lemma gate_step env w w' : gate w → effect env w w' → gate w'.
Proof.
  intros Hg Heff.
  destruct Heff as [Hch|tx seller required Hch|j data Hnew Hch
                   |j job tx seller required resp v Hjob Hver Hok Hch
                   |j job tx seller required Hjob Hch
                   |t rest job Hq Hjob Hch|t rest Hq Hjob Hch
                   |i t job res Hi Hjob Hch|i t job e Hi Hjob Hch
                   |i t Hi Hjob Hch|text Hch];
    destruct Hch as (Ej & _ & El & Ec & Es & _).
  - apply (gate_same w); [done..|]. by rewrite Ec, Es.
  - apply (gate_same w); [done..|]. by rewrite Ec, Es.
  - (* a new job: nothing shows on it, nothing is logged for it *)
    destruct Hg as [Hhash Htouched Hlogs Htasks Hpaid]. split.
    + intros j0 job0. rewrite Ej, El, lookup_insert. case_decide as Hjj.
      * subst j0. intros [= <-]. cbn. by rewrite (Hlogs j Hnew).
      * apply Hhash.
    + intros j0 job0. rewrite Ej, lookup_insert. case_decide as Hjj.
      * subst j0. intros [= <-]. unfold touched. cbn.
        intros [?|[?|[?|[[? ?]|[[? ?]|[[? ?]|[? ?]]]]]]]; discriminate.
      * apply Htouched.
    + intros j0. rewrite Ej, El, lookup_insert. case_decide; [done|].
      apply Hlogs.
    + intros t. rewrite Ec, Es. intros Hin.
      destruct (Htasks t Hin) as (job0 & Hjob0 & Hs).
      exists job0. rewrite Ej, lookup_insert_ne; [done|].
      intros ->. by rewrite Hnew in Hjob0.
    + intros j0 l. rewrite El. apply Hpaid.
  - (* an accepted proof: hash and log are written together *)
    destruct (accepted_details _ _ _ _ _ Hver Hok) as (r & m & Hd & Hle).
    destruct Hg as [Hhash Htouched Hlogs Htasks Hpaid]. split.
    + intros j0 job0. rewrite Ej, El, !lookup_insert. case_decide as Hjj.
      * subst j0. by intros [= <-].
      * apply Hhash.
    + intros j0 job0. rewrite Ej, lookup_insert. case_decide as Hjj.
      * subst j0. intros [= <-] _. by eexists.
      * apply Htouched.
    + intros j0. rewrite Ej, El, !lookup_insert. case_decide; [done|].
      apply Hlogs.
    + intros t. rewrite Ec, Es, Ej, lookup_insert.
      case_decide as Hjj; [intros _; eexists; split; [done|by eexists]|].
      rewrite <- app_assoc, elem_of_app, (elem_of_app [_]),
        list_elem_of_singleton.
      intros [Hin|[->|Hin]]; [| done |].
      * apply Htasks, elem_of_app. by left.
      * apply Htasks, elem_of_app. by right.
    + intros j0 l. rewrite El, lookup_insert. case_decide as Hjj.
      * intros [= <-]. cbn. rewrite Hd. by exists r, m, required.
      * apply Hpaid.
  - (* a refused proof *)
    apply (gate_update w w' j job _ Hg Hjob Ej El); [done| |by rewrite Ec, Es].
    unfold touched. cbn. intros Hto. left.
    destruct Hto as [?|[?|[?|Hto]]]; [discriminate..|].
    by do 3 right.
  - (* a task starts: it belongs to a job with a verified hash *)
    destruct (gate_tasks w Hg t) as (job0 & Hjob0 & Hs).
    { rewrite Hq. apply elem_of_app. left. by left. }
    rewrite Hjob in Hjob0. injection Hjob0 as <-.
    apply (gate_update w w' _ job _ Hg Hjob Ej El); [done|by right|].
    intros t0. rewrite Ec, Es, Hq, app_assoc, !elem_of_app,
      list_elem_of_singleton, !elem_of_cons.
    tauto.
  - apply (gate_same w); [done..|].
    intros t0. rewrite Ec, Es, Hq, !elem_of_app, elem_of_cons. tauto.
  - destruct (gate_tasks w Hg t) as (job0 & Hjob0 & Hs).
    { apply elem_of_app. right. apply list_elem_of_lookup. by exists i. }
    rewrite Hjob in Hjob0. injection Hjob0 as <-.
    apply (gate_update w w' _ job _ Hg Hjob Ej El);
      [apply finish_success_hash|by right|].
    intros t0. rewrite Ec, Es, !elem_of_app.
    intros [?|?%list_elem_of_delete_inv]; tauto.
  - destruct (gate_tasks w Hg t) as (job0 & Hjob0 & Hs).
    { apply elem_of_app. right. apply list_elem_of_lookup. by exists i. }
    rewrite Hjob in Hjob0. injection Hjob0 as <-.
    apply (gate_update w w' _ job _ Hg Hjob Ej El); [done|by right|].
    intros t0. rewrite Ec, Es, !elem_of_app.
    intros [?|?%list_elem_of_delete_inv]; tauto.
  - apply (gate_same w); [done..|].
    intros t0. rewrite Ec, Es, !elem_of_app.
    intros [?|?%list_elem_of_delete_inv]; tauto.
  - apply (gate_same w); [done..|]. by rewrite Ec, Es.
Qed.

(** *** Outside calls *)

Lemma kickoffs_calls w w' cs :
  calls w' = calls w ++ cs →
  kickoffs w' = (kickoffs w + length (filter (λ c, is_kickoff c = true) cs))%nat.
Proof. intros H. unfold kickoffs. by rewrite H, filter_app, length_app. Qed.

Lemma verifies_calls w w' cs :
  calls w' = calls w ++ cs →
  verifies w' = (verifies w + length (filter (λ c, is_verify c = true) cs))%nat.
Proof. intros H. unfold verifies. by rewrite H, filter_app, length_app. Qed.

Lemma quiet_step env w w' : quiet w → effect env w w' → quiet w'.
Proof.
  intros [Hcalls Hcount] Heff.
  destruct Heff as [Hch|tx seller required Hch|j data Hnew Hch
                   |j job tx seller required resp v Hjob Hver Hok Hch
                   |j job tx seller required Hjob Hch
                   |t rest job Hq Hjob Hch|t rest Hq Hjob Hch
                   |i t job res Hi Hjob Hch|i t job e Hi Hjob Hch
                   |i t Hi Hjob Hch|text Hch];
    destruct Hch as (_ & _ & _ & Ec & _ & Ecalls).
  all: split.
  all: try (rewrite Ecalls; apply Forall_app; split; [exact Hcalls|];
            by repeat apply Forall_cons).
  all: rewrite (kickoffs_calls _ _ _ Ecalls), (verifies_calls _ _ _ Ecalls), Ec.
  all: try rewrite Hq in Hcount.
  all: cbn; cbn in Hcount; rewrite ?length_app; cbn; try lia.
  all: repeat case_decide; try discriminate; try congruence; cbn; lia.
Qed.

(** *** What stays of a job *)

Lemma persists_refl job : persists job job.
Proof. by split. Qed.

Lemma persists_trans job1 job2 job3 :
  persists job1 job2 → persists job2 job3 → persists job1 job3.
Proof.
  intros [I1 D1 H1 R1 E1 T1 N1] [I2 D2 H2 R2 E2 T2 N2].
  split; [congruence|congruence|auto..].
Qed.

Lemma persists_update (w w' : World) j job' :
  jobs w' = <[j := job']> (jobs w) →
  (∀ job, jobs w !! j = Some job → persists job job') →
  ∀ j0 job0, jobs w !! j0 = Some job0 →
    ∃ job0', jobs w' !! j0 = Some job0' ∧ persists job0 job0'.
Proof.
  intros Ej Hp j0 job0 Hjob0. rewrite Ej, lookup_insert.
  case_decide as Hjj.
  - subst j0. exists job'. split; [done|]. by apply Hp.
  - exists job0. split; [done|apply persists_refl].
Qed.

Lemma persists_same (w w' : World) :
  jobs w' = jobs w →
  ∀ j0 job0, jobs w !! j0 = Some job0 →
    ∃ job0', jobs w' !! j0 = Some job0' ∧ persists job0 job0'.
Proof.
  intros Ej j0 job0 Hjob0. exists job0. rewrite Ej.
  split; [done|apply persists_refl].
Qed.

Lemma persists_step env w w' :
  effect env w w' →
  ∀ j0 job0, jobs w !! j0 = Some job0 →
    ∃ job0', jobs w' !! j0 = Some job0' ∧ persists job0 job0'.
Proof.
  intros Heff.
  destruct Heff as [Hch|tx seller required Hch|j data Hnew Hch
                   |j job tx seller required resp v Hjob Hver Hok Hch
                   |j job tx seller required Hjob Hch
                   |t rest job Hq Hjob Hch|t rest Hq Hjob Hch
                   |i t job res Hi Hjob Hch|i t job e Hi Hjob Hch
                   |i t Hi Hjob Hch|text Hch];
    destruct Hch as (Ej & _);
    try (by apply persists_same);
    apply (persists_update _ _ _ _ Ej); intros job1 Hjob1;
    try (rewrite Hjob in Hjob1; injection Hjob1 as <-).
  - by rewrite Hnew in Hjob1.
  - split; cbn; try done; intros _; by eexists.
  - by split.
  - by split.
  - unfold finish_success.
    destruct (tx_logs w !! task_job_id t); split; cbn; try done;
      intros _; by eexists.
  - split; cbn; try done; intros _; by eexists.
Qed.

Lemma run_handles env ops :
  feasible env initial ops = true →
  payment_instances (run env initial ops) = ∅.
Proof.
  intros Hops.
  by destruct (run_effect_ind env (λ _, True) (λ _ _ _ _ _, I) ops initial
                 eq_refl I Hops).
Qed.

Lemma run_gate env ops :
  feasible env initial ops = true → gate (run env initial ops).
Proof.
  intros Hops.
  by destruct (run_effect_ind env gate
                 (λ w w' _ Hg Heff, gate_step env w w' Hg Heff) ops initial
                 eq_refl gate_initial Hops).
Qed.

Lemma quiet_initial : quiet initial.
Proof. split; [constructor|cbn; lia]. Qed.

Lemma run_quiet env ops :
  feasible env initial ops = true → quiet (run env initial ops).
Proof.
  intros Hops.
  by destruct (run_effect_ind env quiet
                 (λ w w' _ Hq Heff, quiet_step env w w' Hq Heff) ops initial
                 eq_refl quiet_initial Hops).
Qed.

Lemma run_persists env ops w :
  payment_instances w = ∅ → feasible env w ops = true →
  ∀ j job, jobs w !! j = Some job →
    ∃ job', jobs (run env w ops) !! j = Some job' ∧ persists job job'.
Proof.
  revert w. induction ops as [|op ops IH]; intros w Hh Hops j job Hjob.
  - exists job. split; [done|apply persists_refl].
  - unfold feasible in Hops. cbn [all_along] in Hops.
    apply andb_true_iff in Hops as [Hfresh Hrest].
    pose proof (step_effect env w op Hh Hfresh) as Heff.
    destruct (persists_step env _ _ Heff j job Hjob) as (job1 & Hjob1 & Hp1).
    destruct (IH (step env w op)) with (j := j) (job := job1)
      as (job2 & Hjob2 & Hp2);
      [by rewrite (effect_handles _ _ _ Heff)|exact Hrest|exact Hjob1|].
    exists job2. split; [exact Hjob2|by eapply persists_trans].
Qed.

(** X17. In no run of the service is a payment handle ever registered, so
    the payment service is never called: no [check_payment_status], no
    [complete_payment], no [stop_status_monitoring]. The only outside
    calls are to the verifier and to the crew. *)
Theorem payment_service_is_never_used env ops :
  feasible env initial ops = true →
  payment_instances (run env initial ops) = ∅ ∧
  Forall (λ c, is_masumi c = false) (calls (run env initial ops)).
Proof.
  intros Hops. split; [by apply run_handles|].
  by destruct (run_quiet env ops Hops).
Qed.

Lemma payment_service_is_never_used_witness :
  payment_instances (run Demo.env initial Demo.completed_run) = ∅ ∧
  Forall (λ c, is_masumi c = false)
    (calls (run Demo.env initial Demo.completed_run)).
Proof.
  apply (payment_service_is_never_used Demo.env Demo.completed_run).
  vm_compute. reflexivity.
Defined.

Lemma step_forced env w op :
  forced (step env w op)
  = (forced w + (if is_force_run op then 1 else 0))%nat.
Proof.
  unfold forced.
  destruct op as [j data|j tx resp|j chk| |i out cr|data out];
    cbn [step is_force_run].
  - unfold start_job. repeat case_match; world_simpl; lia.
  - unfold submit_tx.
    repeat case_match; world_simpl;
      rewrite ?filter_app, ?length_app; cbn;
      repeat case_decide; try discriminate; cbn; lia.
  - unfold get_status.
    repeat case_match; world_simpl;
      rewrite ?filter_app, ?length_app; cbn;
      repeat case_decide; try discriminate; cbn; lia.
  - unfold task_start, handle_payment_status_enter, kickoff_call.
    repeat case_match; simplify_eq; world_simpl;
      rewrite ?filter_app, ?length_app; cbn;
      repeat case_decide; try discriminate; cbn; lia.
  - unfold task_resume, handle_payment_status_resume,
      handle_payment_status_except, release_payment.
    repeat case_match; simplify_eq; world_simpl;
      rewrite ?filter_app, ?length_app; cbn;
      repeat case_decide; try discriminate; cbn; lia.
  - unfold force_run_step. world_simpl.
    rewrite filter_app, length_app. cbn.
    repeat case_decide; try discriminate; try congruence; cbn; lia.
Qed.

Lemma run_forced env ops :
  ∀ w, forced (run env w ops) = (forced w + force_runs ops)%nat.
Proof.
  induction ops as [|op ops IH]; intros w; [cbn; lia|].
  change (run env w (op :: ops)) with (run env (step env w op) ops).
  rewrite IH, step_forced. unfold force_runs. rewrite filter_cons.
  destruct (is_force_run op); case_decide; try done; cbn; lia.
Qed.

(** X18. In every run, [/force_run] requests included: the number of crew
    starts made by execution phases plus the number of executions waiting
    to start is at most the number of times a proof has been sent to the
    verifier, so no execution phase starts without a verification before
    it. The crew starts of [/force_run] are outside this bound: there is
    exactly one per request and none needs a verification. All crew
    starts together, plus the waiting executions, are at most the
    verifier calls plus the [/force_run] requests. *)
Theorem crew_starts_follow_verifications env ops :
  feasible env initial ops = true →
  (kickoffs (run env initial ops) + length (created (run env initial ops))
   ≤ verifies (run env initial ops))%nat ∧
  forced (run env initial ops) = force_runs ops ∧
  (kickoffs (run env initial ops) + forced (run env initial ops)
   + length (created (run env initial ops))
   ≤ verifies (run env initial ops) + force_runs ops)%nat.
Proof.
  intros Hops. destruct (run_quiet env ops Hops) as [_ Hcount].
  pose proof (run_forced env ops initial) as Hforced.
  change (forced initial) with 0%nat in Hforced.
  split; [exact Hcount|]. split; [by rewrite Hforced|lia].
Qed.

Lemma crew_starts_follow_verifications_witness :
  (kickoffs (run Demo.env initial Demo.crowded_run)
   + length (created (run Demo.env initial Demo.crowded_run))
   ≤ verifies (run Demo.env initial Demo.crowded_run))%nat ∧
  forced (run Demo.env initial Demo.crowded_run)
  = force_runs Demo.crowded_run ∧
  (kickoffs (run Demo.env initial Demo.crowded_run)
   + forced (run Demo.env initial Demo.crowded_run)
   + length (created (run Demo.env initial Demo.crowded_run))
   ≤ verifies (run Demo.env initial Demo.crowded_run)
     + force_runs Demo.crowded_run)%nat.
Proof.
  apply (crew_starts_follow_verifications Demo.env Demo.crowded_run).
  vm_compute. reflexivity.
Defined.

Example force_run_starts_the_crew_unverified :
  forced (run Demo.env initial
            [OpForceRun (Demo.request "anything")
               (ExecReturns Demo.crew_output)]) = 1%nat ∧
  verifies (run Demo.env initial
              [OpForceRun (Demo.request "anything")
                 (ExecReturns Demo.crew_output)]) = 0%nat.
Proof. split; vm_compute; reflexivity. Qed.

(** X19. The payment gate, in every run and without any discipline on the
    callers: a job that is running or completed, or that carries a
    result, an error, a certificate, a transaction record or a completed
    payment status, has a transaction hash; that hash is the one in the
    transaction log, and the logged verification received at least the
    amount it required. *)
Theorem nothing_runs_unpaid env ops j job :
  feasible env initial ops = true →
  jobs (run env initial ops) !! j = Some job →
  touched job →
  ∃ l r m req,
    tx_logs (run env initial ops) !! j = Some l ∧
    tx_hash job = Some (log_tx_hash l) ∧
    verified l = DetailsPayment r m req ∧
    req ≤ r.
Proof.
  intros Hops Hjob Hto.
  pose proof (run_gate env ops Hops) as Hg.
  destruct (gate_touched _ Hg j job Hjob Hto) as [h Hh].
  pose proof (gate_hash _ Hg j job Hjob) as Hlog. rewrite Hh in Hlog.
  destruct (tx_logs (run env initial ops) !! j) as [l|] eqn:Hl; [|done].
  injection Hlog as ->.
  destruct (gate_paid _ Hg j l Hl) as (r & m & req & Hv & Hle).
  by exists l, r, m, req.
Qed.

Lemma nothing_runs_unpaid_witness :
  ∃ l r m req,
    tx_logs (run Demo.env initial Demo.completed_run) !! "job-1" = Some l ∧
    tx_hash Demo.completed_job = Some (log_tx_hash l) ∧
    verified l = DetailsPayment r m req ∧
    req ≤ r.
Proof.
  apply (nothing_runs_unpaid Demo.env Demo.completed_run "job-1"
           Demo.completed_job).
  - vm_compute. reflexivity.
  - vm_compute. reflexivity.
  - right. left. reflexivity.
Defined.

(** X20. In every run each execution that is scheduled or waiting for the
    crew belongs to a registered job, so neither half of the coroutine can
    fail on a missing job. *)
Theorem scheduled_executions_have_jobs env ops t :
  feasible env initial ops = true →
  t ∈ created (run env initial ops) ++ suspended (run env initial ops) →
  is_Some (handle_payment_status_enter (task_job_id t) (task_payment_id t)
             (run env initial ops)) ∧
  ∀ out cr,
    is_Some (handle_payment_status_resume env out cr (task_job_id t)
               (task_payment_id t) (run env initial ops)).
Proof.
  intros Hops Hin.
  destruct (gate_tasks _ (run_gate env ops Hops) t Hin) as (job & Hjob & _).
  split.
  - unfold handle_payment_status_enter. rewrite Hjob. by eexists.
  - intros out cr. unfold handle_payment_status_resume. rewrite Hjob.
    destruct out; by eexists.
Qed.

Lemma scheduled_executions_have_jobs_witness :
  is_Some (handle_payment_status_enter "job-1" "tx-1"
             (run Demo.env initial Demo.paid_run)) ∧
  ∀ out cr,
    is_Some (handle_payment_status_resume Demo.env out cr "job-1" "tx-1"
               (run Demo.env initial Demo.paid_run)).
Proof.
  apply (scheduled_executions_have_jobs Demo.env Demo.paid_run
           {| task_job_id := "job-1"; task_payment_id := "tx-1" |}).
  - vm_compute. reflexivity.
  - vm_compute. left.
Defined.

(** X21. In every run a registered job stays registered under its id with
    the inputs and the purchaser identifier it was created with, and a
    transaction hash, result, error, transaction record or certificate
    that is once set stays set (its value may be replaced). *)
Theorem jobs_are_kept env ops1 ops2 j job :
  feasible env initial (ops1 ++ ops2) = true →
  jobs (run env initial ops1) !! j = Some job →
  ∃ job', jobs (run env initial (ops1 ++ ops2)) !! j = Some job' ∧
          persists job job'.
Proof.
  intros Hops Hjob. apply all_along_app in Hops as [Hops1 Hops2].
  rewrite run_app. apply run_persists; [|exact Hops2|exact Hjob].
  by apply run_handles.
Qed.

Lemma jobs_are_kept_witness :
  ∃ job', jobs (run Demo.env initial
                  ([OpStartJob "job-1" (Demo.request "hello")]
                     ++ [OpSubmitTx "job-1" "tx-1" (Demo.paying 15000000);
                         OpTaskStart;
                         OpTaskResume 0 (ExecRaises "crew crashed") false;
                         OpSubmitTx "job-1" "tx-2" (Demo.paying 3000000)]))
            !! "job-1" = Some job' ∧
          persists Demo.new_job job'.
Proof.
  apply (jobs_are_kept Demo.env
           [OpStartJob "job-1" (Demo.request "hello")]
           [OpSubmitTx "job-1" "tx-1" (Demo.paying 15000000);
            OpTaskStart;
            OpTaskResume 0 (ExecRaises "crew crashed") false;
            OpSubmitTx "job-1" "tx-2" (Demo.paying 3000000)]
           "job-1" Demo.new_job).
  - vm_compute. reflexivity.
  - vm_compute. reflexivity.
Defined.

(** X22. When each job receives at most one proof, [get_status] shows a
    result only for a completed job: a job that awaits payment, runs or
    has failed is shown with a null result; and the query changes
    nothing. *)
Theorem only_completed_jobs_show_a_result env ops chk j view w' :
  single_proof env initial ops = true →
  get_status chk j (run env initial ops) = (Return view, w') →
  (view_result view ≠ PyNone → view_status view = completed) ∧
  (view_status view ≠ completed → view_result view = PyNone) ∧
  w' = run env initial ops.
Proof.
  intros Hops Hget.
  destruct (run_sound env ops initial inv_initial Hops) as [Hinv _].
  unfold get_status in Hget.
  destruct (jobs (run env initial ops) !! j) as [job|] eqn:Hjob; [|done].
  rewrite (inv_no_handles _ Hinv), lookup_empty in Hget.
  rewrite bool_decide_eq_false_2 in Hget by (intros [? ?]; done).
  injection Hget as <- <-. cbn.
  pose proof (inv_jobs _ Hinv j job Hjob) as Hphase.
  unfold job_ok, job_phase in Hphase.
  assert (Hnone : result job = None →
            (if result_truthy (result job) && hasattr_raw (result job)
             then getattr_raw (result job) else PyNone) = PyNone)
    by (by intros ->).
  destruct (status job); destruct Hphase as (Hres & _);
    repeat split; try done; try (intros []; by apply Hnone);
    try (intros _; by apply Hnone).
Qed.

Lemma only_completed_jobs_show_a_result_witness :
  (view_result Demo.done_view ≠ PyNone →
   view_status Demo.done_view = completed) ∧
  (view_status Demo.done_view ≠ completed →
   view_result Demo.done_view = PyNone) ∧
  Demo.done_world = run Demo.env initial
                      [OpStartJob "job-1" (Demo.request "hello");
                       OpSubmitTx "job-1" "tx-1" (Demo.paying 15000000);
                       OpTaskStart;
                       OpTaskResume 0 (ExecReturns (ResText "done")) false].
Proof.
  apply (only_completed_jobs_show_a_result Demo.env
           [OpStartJob "job-1" (Demo.request "hello");
            OpSubmitTx "job-1" "tx-1" (Demo.paying 15000000);
            OpTaskStart;
            OpTaskResume 0 (ExecReturns (ResText "done")) false]
           (CheckReturns None) "job-1" Demo.done_view Demo.done_world).
  - vm_compute. reflexivity.
  - vm_compute. reflexivity.
Defined.

End RunCoverage.

(** ** More on submit_tx *)

Module SubmitCoverage.
Import CardanoPayments CardanoNft Main Coverage Lifecycle.

(** X23. Whatever the verifier answers, [submit_tx] touches only the job
    it is called for: every other job and log entry, the payment handles
    and the waiting executions are as before; and of its own job it
    changes nothing but status, payment status and transaction hash, so
    an earlier result, error, certificate and transaction record stay. *)
Theorem submit_tx_touches_one_job env resp j hash w :
  payment_instances (snd (submit_tx env resp j hash w)) = payment_instances w ∧
  suspended (snd (submit_tx env resp j hash w)) = suspended w ∧
  (∀ j', j' ≠ j →
     jobs (snd (submit_tx env resp j hash w)) !! j' = jobs w !! j' ∧
     tx_logs (snd (submit_tx env resp j hash w)) !! j' = tx_logs w !! j') ∧
  (∀ job, jobs w !! j = Some job →
     ∃ job', jobs (snd (submit_tx env resp j hash w)) !! j = Some job' ∧
       input_data job' = input_data job ∧
       identifier_from_purchaser job' = identifier_from_purchaser job ∧
       result job' = result job ∧
       error job' = error job ∧
       tx job' = tx job ∧
       nft job' = nft job).
Proof.
  unfold submit_tx.
  destruct (jobs w !! j) as [job|] eqn:Hjob;
    [|by repeat split; try done; intros ? [=]].
  destruct (nonempty (SELLER_ADDRESS env)) as [seller|];
    [|repeat split; try done; intros ? [= <-]; by exists job].
  destruct (int_getenv (PAYMENT_AMOUNT env) 10000000) as [required|];
    [|repeat split; try done; intros ? [= <-]; by exists job].
  destruct (verify_transaction_pay_to_address resp hash seller required)
    as [v|c d|e];
    [|repeat split; try done; intros ? [= <-]; by exists job..].
  destruct (ok v); cbn [negb]; world_simpl;
    rewrite (alter_known _ _ _ _ Hjob), ?alter_insert_eq;
    (split; [done|]); (split; [done|]); split.
  - intros j' Hne. by rewrite !lookup_insert_ne.
  - intros ? [= <-]. rewrite lookup_insert_eq. by eexists.
  - intros j' Hne. by rewrite !lookup_insert_ne.
  - intros ? [= <-]. rewrite lookup_insert_eq. by eexists.
Qed.

Lemma submit_tx_touches_one_job_witness :
  ∃ job', jobs (snd (submit_tx Demo.env (Demo.paying 3000000) "job-1" "tx-2"
                       Demo.done_world)) !! "job-1" = Some job' ∧
    input_data job' = input_data Demo.done_job ∧
    identifier_from_purchaser job'
      = identifier_from_purchaser Demo.done_job ∧
    result job' = result Demo.done_job ∧
    error job' = error Demo.done_job ∧
    tx job' = tx Demo.done_job ∧
    nft job' = nft Demo.done_job.
Proof.
  destruct (submit_tx_touches_one_job Demo.env (Demo.paying 3000000) "job-1"
              "tx-2" Demo.done_world) as (_ & _ & _ & Hown).
  apply (Hown Demo.done_job). vm_compute. reflexivity.
Defined.

(** X24. When a lovelace quantity paid to the seller does not convert, the
    [ValueError] of the verifier escapes [submit_tx]: the verifier has
    been called, and the jobs, the log and the executions are as before,
    so the job is neither failed nor paid. *)
Theorem submit_tx_malformed_answer env data j tx w job seller required :
  jobs w !! j = Some job →
  nonempty (SELLER_ADDRESS env) = Some seller →
  int_getenv (PAYMENT_AMOUNT env) 10000000 = Some required →
  quantities_ok seller data = false →
  submit_tx env (HttpOk data) j tx w
  = (RaiseError "ValueError", call (CallVerify tx seller required) w).
Proof.
  intros Hjob Hseller Hreq Hbad. unfold submit_tx.
  rewrite Hjob, Hseller, Hreq.
  by rewrite (VerifierCoverage.verify_bad_data _ _ _ _ Hbad).
Qed.

Lemma submit_tx_malformed_answer_witness :
  submit_tx Demo.env
    (HttpOk {| outputs :=
                 Some [ {| address := Some "addr_test1seller";
                           amount := Some [ {| unit := Some "lovelace";
                                               quantity := QMalformed "1e7" |} ]
                        |} ] |})
    "job-1" "tx-1" Demo.new_world
  = (RaiseError "ValueError",
     call (CallVerify "tx-1" "addr_test1seller" 10000000) Demo.new_world).
Proof.
  apply (submit_tx_malformed_answer Demo.env _ "job-1" "tx-1" Demo.new_world
           Demo.new_job "addr_test1seller" 10000000).
  - vm_compute. reflexivity.
  - reflexivity.
  - reflexivity.
  - reflexivity.
Defined.

(** X25. An accepted proof followed by its execution: when the crew
    returns, the job is completed and carries the result, the submitted
    hash, and as transaction record that hash with the details the
    verifier reported for it. *)
Theorem accepted_then_executed env resp j hash w job seller required v res cr :
  jobs w !! j = Some job →
  verifier_reports env resp hash seller required v →
  ok v = true →
  ∃ w' job',
    handle_payment_status env (ExecReturns res) cr j hash
      (snd (submit_tx env resp j hash w)) = Some w' ∧
    jobs w' !! j = Some job' ∧
    status job' = completed ∧
    payment_status job' = Some "completed" ∧
    result job' = Some res ∧
    tx_hash job' = Some hash ∧
    tx job' = Some {| log_tx_hash := hash; verified := details v |}.
Proof.
  intros Hjob Hrep Hok.
  destruct (MainFacts.accepted_call_effect _ _ _ _ _ _ _ _ _ Hjob Hrep Hok)
    as (w1 & Hcall & Hjob1 & Hlog1 & _).
  rewrite Hcall. cbn [snd].
  destruct (HandlerCoverage.handle_payment_status_effect env (ExecReturns res)
              cr j hash w1 _ Hjob1)
    as (w' & Hrun & Hjobs & _).
  eexists w', _. split; [exact Hrun|].
  rewrite Hjobs, lookup_insert_eq. split; [reflexivity|].
  unfold finish_success. rewrite Hlog1. by repeat split.
Qed.

Lemma accepted_then_executed_witness :
  ∃ w' job',
    handle_payment_status Demo.env (ExecReturns Demo.crew_output) false
      "job-1" "tx-1"
      (snd (submit_tx Demo.env (Demo.paying 15000000) "job-1" "tx-1"
              Demo.new_world)) = Some w' ∧
    jobs w' !! "job-1" = Some job' ∧
    status job' = completed ∧
    payment_status job' = Some "completed" ∧
    result job' = Some Demo.crew_output ∧
    tx_hash job' = Some "tx-1" ∧
    tx job' = Some {| log_tx_hash := "tx-1";
                      verified := details Demo.good_verification |}.
Proof.
  apply (accepted_then_executed Demo.env (Demo.paying 15000000) "job-1"
           "tx-1" Demo.new_world Demo.new_job "addr_test1seller" 10000000
           Demo.good_verification Demo.crew_output false).
  - vm_compute. reflexivity.
  - repeat split.
  - reflexivity.
Defined.

End SubmitCoverage.

(** ** One job, whatever happens to the others *)

Module PerJob.
Import CardanoPayments CardanoNft Main Coverage Lifecycle.

Lemma slot_same j seen seen' w w' :
  slot j seen w →
  payment_instances w' = payment_instances w →
  jobs w' !! j = jobs w !! j →
  tasks_of j (created w') = tasks_of j (created w) →
  tasks_of j (suspended w') = tasks_of j (suspended w) →
  (seen' = false → seen = false) →
  slot j seen' w' ∧ moves_forward j w w'.
Proof.
  intros [Hh Hslot] Ep Ej Ec Es Hseen. split.
  - split; [by rewrite Ep|]. rewrite Ej, Ec, Es.
    destruct (jobs w !! j); [|done].
    destruct Hslot as [Hphase Hpend]. split; [done|]. auto.
  - intros job Hjob. exists job. rewrite Ej.
    split; [done|apply forward_refl].
Qed.

Lemma slot_update j seen' w w' job job' :
  payment_instances w' = ∅ →
  jobs w !! j = Some job →
  jobs w' !! j = Some job' →
  job_phase (tasks_of j (created w')) (tasks_of j (suspended w')) job' →
  (seen' = false → payment_status job' = Some "pending") →
  forward (status job) (status job') = true →
  slot j seen' w' ∧ moves_forward j w w'.
Proof.
  intros Ep Hjob Hjob' Hphase Hpend Hfwd. split.
  - split; [done|]. by rewrite Hjob'.
  - intros job0 Hjob0. rewrite Hjob in Hjob0. injection Hjob0 as <-.
    by exists job'.
Qed.

Lemma slot_known j seen w :
  slot j seen w →
  (1 ≤ tasks_of j (created w) + tasks_of j (suspended w))%nat →
  ∃ job, jobs w !! j = Some job ∧
    job_phase (tasks_of j (created w)) (tasks_of j (suspended w)) job ∧
    (seen = false → payment_status job = Some "pending").
Proof.
  intros [_ Hslot] Hone. destruct (jobs w !! j) as [job|].
  - by exists job.
  - destruct Hslot as [Hc Hs]. lia.
Qed.

Lemma start_job_slot env j seen j' data w :
  slot j seen w → jobs w !! j' = None →
  slot j seen (snd (start_job env j' data w)) ∧
  moves_forward j w (snd (start_job env j' data w)).
Proof.
  intros Hslot Hnew. unfold start_job.
  destruct (req_input_data data !! "text"); [|by apply (slot_same j seen)].
  assert (Hgoal : ∀ job0, status job0 = awaiting_payment →
            payment_status job0 = Some "pending" → result job0 = None →
            error job0 = None →
            slot j seen (with_jobs (insert j' job0) w) ∧
            moves_forward j w (with_jobs (insert j' job0) w)).
  { intros job0 Hst Hp Hr He. destruct (decide (j' = j)) as [->|Hne].
    - destruct Hslot as [Hh Hslot]. rewrite Hnew in Hslot.
      destruct Hslot as [Hc Hs]. split.
      + split; [done|]. world_simpl. rewrite lookup_insert_eq, Hc, Hs.
        split; [|done]. unfold job_phase. rewrite Hst. intuition.
      + intros job Hjob. by rewrite Hnew in Hjob.
    - apply (slot_same j seen); try done.
      world_simpl. by rewrite lookup_insert_ne. }
  destruct (int_getenv (PAYMENT_AMOUNT env) 10000000); world_simpl;
    by apply Hgoal.
Qed.

Lemma submit_tx_slot env j seen j' hash resp w :
  slot j seen w →
  (j' = j → seen = false) →
  slot j (seen || bool_decide (j' = j)) (snd (submit_tx env resp j' hash w)) ∧
  moves_forward j w (snd (submit_tx env resp j' hash w)).
Proof.
  intros Hslot Hguard.
  assert (Hseen : seen || bool_decide (j' = j) = false → seen = false)
    by (by intros [? _]%orb_false_iff).
  unfold submit_tx.
  destruct (jobs w !! j') as [job|] eqn:Hjob;
    [|by apply (slot_same j seen)].
  destruct (nonempty (SELLER_ADDRESS env)) as [seller|];
    [|by apply (slot_same j seen)].
  destruct (int_getenv (PAYMENT_AMOUNT env) 10000000) as [required|];
    [|by apply (slot_same j seen)].
  destruct (verify_transaction_pay_to_address resp hash seller required)
    as [v|c d|e]; [|by apply (slot_same j seen)..].
  destruct (decide (j' = j)) as [->|Hne].
  - (* a proof for [j]: the first one, so the payment is pending *)
    pose proof (Hguard eq_refl) as ->.
    destruct Hslot as [Hh Hslot]. rewrite Hjob in Hslot.
    destruct Hslot as [Hphase Hpend].
    destruct (pending_phase _ _ _ Hphase (Hpend eq_refl))
      as (Hst & Hres & Herr & Hc & Hs).
    rewrite bool_decide_eq_true_2 by done. cbn [orb].
    destruct (ok v); cbn [negb]; world_simpl.
    + apply (slot_update j true w _ job
               (set_tx_hash (Some hash)
                  (set_payment_status (Some "completed") job)));
        [done|done| | |done|apply forward_refl].
      * world_simpl. by rewrite !lookup_alter_eq, Hjob.
      * world_simpl. rewrite tasks_of_snoc, Hc, Hs.
        rewrite belongs_own by done.
        unfold job_phase. world_simpl. rewrite Hst. intuition.
    + apply (slot_update j true w _ job
               (set_status failed (set_payment_status (Some "failed") job)));
        [done|done| | |done|by rewrite Hst].
      * world_simpl. by rewrite !lookup_alter_eq, Hjob.
      * world_simpl. rewrite Hc, Hs. unfold job_phase. world_simpl.
        intuition.
  - (* a proof for another job *)
    destruct (ok v); cbn [negb]; world_simpl;
      (apply (slot_same j seen); [done|done| | |done|done]); world_simpl.
    + by rewrite !lookup_alter_ne.
    + rewrite tasks_of_snoc, belongs_other by (cbn; congruence). lia.
    + by rewrite !lookup_alter_ne.
    + done.
Qed.

Lemma task_start_slot j seen w :
  slot j seen w →
  slot j seen (task_start w) ∧ moves_forward j w (task_start w).
Proof.
  intros Hslot. unfold task_start.
  destruct (created w) as [|t rest] eqn:Hq; [by apply (slot_same j seen)|].
  unfold handle_payment_status_enter. world_simpl.
  destruct (decide (task_job_id t = j)) as [Heq|Hne].
  - (* the task of [j] *)
    assert (Hone : tasks_of j (created w) = S (tasks_of j rest)).
    { rewrite Hq, tasks_of_cons. by rewrite belongs_own. }
    destruct (slot_known j seen w Hslot) as (job & Hjob & Hphase & Hpend);
      [lia|].
    destruct (created_phase _ _ _ Hphase)
      as (Hst & Hres & Herr & Hp & Hc & Hs); [lia|].
    rewrite Heq, Hjob.
    apply (slot_update j seen w _ job (set_status running job));
      [apply Hslot|done| | | |by rewrite Hst].
    + world_simpl. by rewrite lookup_alter_eq, Hjob.
    + world_simpl. rewrite tasks_of_snoc, Hs.
      rewrite belongs_own by done.
      assert (tasks_of j rest = 0%nat) as -> by lia.
      unfold job_phase. world_simpl. intuition.
    + intros Hseen. world_simpl. rewrite (Hpend Hseen) in Hp. discriminate.
  - (* the task of another job, started or dropped *)
    assert (Hrest : tasks_of j rest = tasks_of j (created w)).
    { rewrite Hq, tasks_of_cons, belongs_other by done. done. }
    destruct (jobs w !! task_job_id t) as [job0|] eqn:Hjob0;
      (apply (slot_same j seen); [done|done| | | |done]); world_simpl;
      try done.
    + by rewrite lookup_alter_ne.
    + rewrite tasks_of_snoc, belongs_other by done. lia.
Qed.

Lemma task_resume_slot env j seen i out cr w :
  slot j seen w →
  slot j seen (task_resume env i out cr w) ∧
  moves_forward j w (task_resume env i out cr w).
Proof.
  intros Hslot. unfold task_resume.
  destruct (suspended w !! i) as [t|] eqn:Hi; [|by apply (slot_same j seen)].
  pose proof (tasks_of_delete j _ _ _ Hi) as Hdel.
  destruct (decide (task_job_id t = j)) as [Heq|Hne].
  - (* the task of [j] *)
    rewrite belongs_own in Hdel by done.
    destruct (slot_known j seen w Hslot) as (job & Hjob & Hphase & Hpend);
      [lia|].
    destruct (suspended_phase _ _ _ Hphase)
      as (Hst & Hres & Herr & Hp & Hc & Hs); [lia|].
    rewrite Heq.
    destruct (resume_effect env out cr j (task_payment_id t)
                (with_suspended (delete i) w) job)
      as (w' & job' & Hrun & Hjobs & Hh' & Hc' & Hs' & Hout);
      [apply Hslot|exact Hjob|].
    rewrite Hrun. world_simpl_in Hjobs. world_simpl_in Hc'.
    world_simpl_in Hs'.
    apply (slot_update j seen w w' job job'); [done|done| | | |].
    + by rewrite Hjobs, lookup_insert_eq.
    + rewrite Hc', Hs', Hc.
      assert (tasks_of j (delete i (suspended w)) = 0%nat) as -> by lia.
      unfold job_phase.
      destruct out as [r|e]; destruct Hout as (-> & Hr' & He' & Hp').
      * rewrite Hr', He', Hp', Herr. intuition.
      * rewrite Hr', He', Hp', Hres, Hp. intuition.
    + intros Hseen. rewrite (Hpend Hseen) in Hp. discriminate.
    + rewrite Hst. by destruct out; destruct Hout as (-> & _).
  - (* the task of another job, finished or lost *)
    rewrite belongs_other in Hdel by done.
    destruct (jobs w !! task_job_id t) as [job0|] eqn:Hjob0.
    + destruct (RunCoverage.resume_no_handle env out cr (task_job_id t)
                  (task_payment_id t) (with_suspended (delete i) w) job0)
        as (w' & Hrun & Ej & Ep & _ & Ec & Es & _);
        [apply Hslot|exact Hjob0|].
      rewrite Hrun. world_simpl_in Ej. world_simpl_in Ep.
      world_simpl_in Ec. world_simpl_in Es.
      apply (slot_same j seen); [done|done| | | |done].
      * by rewrite Ej, lookup_insert_ne.
      * by rewrite Ec.
      * rewrite Es. lia.
    + unfold handle_payment_status_resume. world_simpl. rewrite Hjob0.
      apply (slot_same j seen); [done|done|done|done| |done].
      world_simpl. lia.
Qed.

(** One operation keeps the invariant of job [j], provided a proof for
    [j] is the first one; the other jobs are free. *)
Lemma step_slot env j seen w op :
  slot j seen w → fresh_id w op = true →
  (is_proof_for j op = true → seen = false) →
  slot j (seen || is_proof_for j op) (step env w op) ∧
  moves_forward j w (step env w op).
Proof.
  intros Hslot Hfresh Hguard.
  destruct op as [j' d|j' hash resp|j' chk| |i out cr|d out];
    cbn [step is_proof_for] in *; rewrite ?orb_false_r.
  - apply start_job_slot; [done|]. by apply bool_decide_eq_true in Hfresh.
  - apply submit_tx_slot; [done|].
    intros ->. apply Hguard. by apply bool_decide_eq_true_2.
  - rewrite RunCoverage.status_query_noop
      by (destruct Hslot as [-> _]; apply lookup_empty).
    by apply (slot_same j seen).
  - by apply task_start_slot.
  - by apply task_resume_slot.
  - by apply (slot_same j seen).
Qed.

Lemma proofs_for_cons j op ops :
  proofs_for j (op :: ops)
  = ((if is_proof_for j op then 1 else 0) + proofs_for j ops)%nat.
Proof.
  unfold proofs_for. rewrite filter_cons.
  destruct (is_proof_for j op); case_decide; done.
Qed.

Lemma proofs_for_app j ops1 ops2 :
  proofs_for j (ops1 ++ ops2) = (proofs_for j ops1 + proofs_for j ops2)%nat.
Proof. unfold proofs_for. by rewrite filter_app, length_app. Qed.

Lemma moves_forward_trans j w1 w2 w3 :
  moves_forward j w1 w2 → moves_forward j w2 w3 → moves_forward j w1 w3.
Proof.
  intros H12 H23 job Hjob.
  destruct (H12 job Hjob) as (job2 & Hjob2 & Hf2).
  destruct (H23 job2 Hjob2) as (job3 & Hjob3 & Hf3).
  exists job3. split; [done|]. by eapply forward_trans.
Qed.

Lemma slot_initial j : slot j false initial.
Proof. split; [done|]. cbn. by rewrite lookup_empty. Qed.

(** Along a run with fresh ids in which job [j] receives at most one
    proof, the invariant of [j] holds and its status never moves back. *)
Lemma run_slot env j ops :
  ∀ seen w, slot j seen w → feasible env w ops = true →
    (proofs_for j ops + (if seen then 1 else 0) ≤ 1)%nat →
    ∃ seen', slot j seen' (run env w ops) ∧
             moves_forward j w (run env w ops) ∧
             (seen' = true → seen = true ∨ (1 ≤ proofs_for j ops)%nat).
Proof.
  induction ops as [|op ops IH]; intros seen w Hslot Hops Hbudget.
  - exists seen. split; [done|]. split; [|by left].
    intros job Hjob. exists job. split; [done|apply forward_refl].
  - unfold feasible in Hops. cbn [all_along] in Hops.
    apply andb_true_iff in Hops as [Hfresh Hrest].
    rewrite proofs_for_cons in Hbudget |- *.
    destruct (step_slot env j seen w op Hslot Hfresh) as [Hslot' Hfwd'].
    { intros Hp. rewrite Hp in Hbudget. destruct seen; [lia|done]. }
    destruct (IH _ _ Hslot' Hrest) as (seen' & Hslot'' & Hfwd'' & Hseen).
    { destruct seen, (is_proof_for j op); cbn; lia. }
    exists seen'. split; [exact Hslot''|]. split.
    + by eapply moves_forward_trans.
    + intros Hs. destruct (Hseen Hs) as [Hor|Hone]; [|right; lia].
      apply orb_true_iff in Hor as [?|Hp]; [by left|].
      right. rewrite Hp. lia.
Qed.

Lemma completed_step env w w' :
  completed_has_result w → effect env w w' → completed_has_result w'.
Proof.
  intros Hc Heff.
  destruct Heff as [Hch|tx seller required Hch|j data Hnew Hch
                   |j job tx seller required resp v Hjob Hver Hok Hch
                   |j job tx seller required Hjob Hch
                   |t rest job Hq Hjob Hch|t rest Hq Hjob Hch
                   |i t job res Hi Hjob Hch|i t job e Hi Hjob Hch
                   |i t Hi Hjob Hch|text Hch];
    destruct Hch as (Ej & _); intros j0 job0; rewrite Ej;
    try (by apply Hc);
    rewrite lookup_insert; case_decide as Hjj; try (by apply Hc);
    subst j0; intros [= <-]; cbn; try done.
  - by apply (Hc j job).
  - unfold finish_success. destruct (tx_logs w !! task_job_id t); by eexists.
Qed.

Lemma run_completed env ops :
  feasible env initial ops = true →
  completed_has_result (run env initial ops).
Proof.
  intros Hops.
  assert (H0 : completed_has_result initial)
    by (intros j job Hj; cbn in Hj; by rewrite lookup_empty in Hj).
  by destruct (RunCoverage.run_effect_ind env completed_has_result
                 (λ w w' _ Hc Heff, completed_step env w w' Hc Heff)
                 ops initial eq_refl H0 Hops).
Qed.

(** C1, as amended. At every point of every run a completed job has its
    result set. For a job that has received at most one [submit_tx] call
    (the other jobs may have received any number), moreover: [result] is
    set exactly when the status is [completed], and [error] is set exactly
    when the status is [failed] and the failure is not a refused payment
    proof ([payment_status] other than "failed"); a job failed by a
    refused proof carries no [error]. *)
Theorem one_proof_job_consistent env ops job_id job :
  feasible env initial ops = true →
  jobs (run env initial ops) !! job_id = Some job →
  (status job = completed → is_Some (result job)) ∧
  ((proofs_for job_id ops ≤ 1)%nat →
   (is_Some (result job) ↔ status job = completed) ∧
   (is_Some (error job) ↔
      status job = failed ∧ payment_status job ≠ Some "failed")).
Proof.
  intros Hops Hjob. split.
  - by apply (run_completed env ops Hops job_id job).
  - intros Hone.
    destruct (run_slot env job_id ops false initial (slot_initial job_id)
                Hops) as (seen & [_ Hslot] & _); [cbn; lia|].
    rewrite Hjob in Hslot. destruct Hslot as [Hphase _].
    unfold job_phase in Hphase.
    destruct (status job);
      repeat match goal with
             | H : _ ∧ _ |- _ => destruct H
             | H : _ ∨ _ |- _ => destruct H
             end.
    all: repeat split; intros; try done; try congruence.
    all: repeat match goal with
                | H : ?x = None, H' : is_Some ?x |- _ =>
                    rewrite H in H'; by destruct H'
                | H : _ ∧ _ |- _ => destruct H
                end.
    all: try done; try congruence.
Qed.

(** A completed job with one proof, in a run in which a second job
    receives two proofs. *)
Lemma one_proof_job_consistent_witness :
  (status Demo.completed_job = completed →
   is_Some (result Demo.completed_job)) ∧
  (is_Some (result Demo.completed_job) ↔
     status Demo.completed_job = completed) ∧
  (is_Some (error Demo.completed_job) ↔
     status Demo.completed_job = failed ∧
     payment_status Demo.completed_job ≠ Some "failed").
Proof.
  destruct (one_proof_job_consistent Demo.env
              (Demo.completed_run ++ Demo.busy_rest) "job-1"
              Demo.completed_job) as [Hdone Hone].
  - vm_compute. reflexivity.
  - vm_compute. reflexivity.
  - split; [exact Hdone|]. apply Hone. vm_compute. lia.
Defined.

Example refused_job_in_crowded_run :
  jobs (run Demo.env initial Demo.crowded_run) !! "job-1"
  = Some Demo.refused_job.
Proof. vm_compute. reflexivity. Qed.

Example crowded_run_is_not_single_proof :
  feasible Demo.env initial Demo.crowded_run = true ∧
  single_proof Demo.env initial Demo.crowded_run = false ∧
  proofs_for "job-1" Demo.crowded_run = 1%nat ∧
  proofs_for "job-2" Demo.crowded_run = 2%nat ∧
  single_proof Demo.env initial (Demo.completed_run ++ Demo.busy_rest)
    = false.
Proof. repeat split; vm_compute; reflexivity. Qed.

(** C3, as amended. For every job that receives at most one [submit_tx]
    call (the other jobs may receive any number) and every sequence of
    operations with fresh job ids, the status of the job at a later point
    is its status at an earlier point or lies further along
    awaiting_payment, running, {completed, failed} (a refused proof takes
    it from awaiting_payment straight to failed); once [completed] or
    [failed], it keeps that status. *)
Theorem one_proof_job_never_regresses env ops1 ops2 job_id job1 job2 :
  feasible env initial (ops1 ++ ops2) = true →
  (proofs_for job_id (ops1 ++ ops2) ≤ 1)%nat →
  jobs (run env initial ops1) !! job_id = Some job1 →
  jobs (run env initial (ops1 ++ ops2)) !! job_id = Some job2 →
  forward (status job1) (status job2) = true ∧
  (rank (status job1) = 2%nat → status job2 = status job1).
Proof.
  intros Hops Hone Hjob1 Hjob2.
  apply all_along_app in Hops as [Hops1 Hops2].
  rewrite proofs_for_app in Hone.
  destruct (run_slot env job_id ops1 false initial (slot_initial job_id)
              Hops1) as (seen1 & Hslot1 & _ & Hseen1); [cbn; lia|].
  destruct (run_slot env job_id ops2 seen1 _ Hslot1 Hops2)
    as (seen2 & _ & Hfwd & _).
  { destruct seen1; [|lia]. destruct (Hseen1 eq_refl); [done|lia]. }
  destruct (Hfwd job1 Hjob1) as (job2' & Hjob2' & Hf).
  rewrite run_app, Hjob2' in Hjob2. injection Hjob2 as <-.
  split; [exact Hf|]. intros Hfinal. by apply forward_final.
Qed.

(** A completed job stays completed while a second job receives two
    proofs. *)
Lemma one_proof_job_never_regresses_witness :
  forward (status Demo.completed_job) (status Demo.completed_job) = true ∧
  (rank (status Demo.completed_job) = 2%nat →
   status Demo.completed_job = status Demo.completed_job).
Proof.
  apply (one_proof_job_never_regresses Demo.env Demo.completed_run
           Demo.busy_rest "job-1" Demo.completed_job Demo.completed_job).
  - vm_compute. reflexivity.
  - vm_compute. lia.
  - vm_compute. reflexivity.
  - vm_compute. reflexivity.
Defined.

(** C4, as amended. On a known job, when the verifier reports
    [ok = false], [submit_tx] answers "failed" with the verification, the
    job's status and payment status become "failed", and the call creates
    no execution task. When that call is the only [submit_tx] call the job
    ever receives (the other jobs may receive any number), the job stays
    [failed] and never has an execution task. *)
Theorem refused_only_proof_fails_job env resp job_id hash seller required v :
  verifier_reports env resp hash seller required v →
  ok v = false →
  (∀ w job, jobs w !! job_id = Some job →
     ∃ w' job',
       submit_tx env resp job_id hash w = (Return (SubmitFailed v), w') ∧
       jobs w' !! job_id = Some job' ∧
       status job' = failed ∧
       payment_status job' = Some "failed" ∧
       created w' = created w ∧
       suspended w' = suspended w) ∧
  (∀ ops1 ops2,
     feasible env initial (ops1 ++ OpSubmitTx job_id hash resp :: ops2)
       = true →
     (proofs_for job_id (ops1 ++ OpSubmitTx job_id hash resp :: ops2)
      ≤ 1)%nat →
     is_Some (jobs (run env initial ops1) !! job_id) →
     status <$>
       jobs (run env initial
               (ops1 ++ OpSubmitTx job_id hash resp :: ops2)) !! job_id
       = Some failed ∧
     tasks_of job_id
       (created (run env initial
                   (ops1 ++ OpSubmitTx job_id hash resp :: ops2))) = 0%nat ∧
     tasks_of job_id
       (suspended (run env initial
                     (ops1 ++ OpSubmitTx job_id hash resp :: ops2)))
       = 0%nat).
Proof.
  intros Hrep Hok. split.
  - intros w job Hjob.
    destruct (MainFacts.refused_call_effect _ _ _ _ _ _ _ _ _
                Hjob Hrep Hok)
      as (w' & job' & Hcall & Hjob' & Hst & Hp & Hc & Hs & _).
    by exists w', job'.
  - intros ops1 ops2 Hops Hone [job Hjob].
    apply all_along_app in Hops as [Hops1 Hops2].
    cbn [all_along] in Hops2. apply andb_true_iff in Hops2 as [Hfresh Hops2].
    rewrite proofs_for_app, proofs_for_cons in Hone.
    cbn [is_proof_for] in Hone.
    rewrite bool_decide_eq_true_2 in Hone by done.
    destruct (run_slot env job_id ops1 false initial (slot_initial job_id)
                Hops1) as (seen1 & Hslot1 & _ & Hseen1); [cbn; lia|].
    assert (seen1 = false) as ->.
    { destruct seen1; [|done]. destruct (Hseen1 eq_refl); [done|lia]. }
    destruct (step_slot env job_id false _ (OpSubmitTx job_id hash resp)
                Hslot1 Hfresh) as [Hslot2 _]; [done|].
    destruct (run_slot env job_id ops2 _ _ Hslot2 Hops2)
      as (seen3 & [_ Hslot3] & Hfwd & _).
    { cbn [is_proof_for]. rewrite bool_decide_eq_true_2 by done. cbn. lia. }
    destruct (MainFacts.refused_call_effect _ _ _ _ _ _ _ _ _
                Hjob Hrep Hok)
      as (w' & job' & Hcall & Hjob' & Hst & _).
    rewrite run_app.
    change (run env (run env initial ops1)
              (OpSubmitTx job_id hash resp :: ops2))
      with (run env (step env (run env initial ops1)
                       (OpSubmitTx job_id hash resp)) ops2) in *.
    destruct (Hfwd job') as (job'' & Hjob'' & Hf).
    { cbn [step]. by rewrite Hcall. }
    rewrite Hst in Hf. apply forward_final in Hf; [|done].
    rewrite Hjob'' in Hslot3 |- *. destruct Hslot3 as [Hphase _].
    unfold job_phase in Hphase. rewrite Hf in Hphase.
    cbn. rewrite Hf. intuition.
Qed.

(** The first job receives one refused proof while the second job receives
    two accepted ones and runs. *)
Lemma refused_only_proof_fails_job_witness :
  (∃ w' job',
     submit_tx Demo.env (Demo.paying 3000000) "job-1" "tx-1" Demo.new_world
       = (Return (SubmitFailed Demo.short_verification), w') ∧
     jobs w' !! "job-1" = Some job' ∧
     status job' = failed ∧
     payment_status job' = Some "failed" ∧
     created w' = created Demo.new_world ∧
     suspended w' = suspended Demo.new_world) ∧
  (status <$> jobs (run Demo.env initial Demo.crowded_run) !! "job-1"
     = Some failed ∧
   tasks_of "job-1" (created (run Demo.env initial Demo.crowded_run))
     = 0%nat ∧
   tasks_of "job-1" (suspended (run Demo.env initial Demo.crowded_run))
     = 0%nat).
Proof.
  destruct (refused_only_proof_fails_job Demo.env (Demo.paying 3000000)
              "job-1" "tx-1" "addr_test1seller" 10000000
              Demo.short_verification) as [Hcall Hrun].
  - repeat split.
  - reflexivity.
  - split.
    + apply (Hcall Demo.new_world Demo.new_job). vm_compute. reflexivity.
    + apply (Hrun Demo.crowded_prefix Demo.crowded_rest).
      * vm_compute. reflexivity.
      * vm_compute. lia.
      * vm_compute. by eexists.
Defined.

End PerJob.

(** ** The contract of the chain verifier *)

Module VerifierContract.
Import CardanoPayments Coverage.




End VerifierContract.
